(** * VeriGauge: the RecurJac adaptor (adaptor/recurjac_adaptor.py)

    A shallow embedding of the adaptor layer that converts a torch
    sequential model into a keras layer graph and plumbs the parameters of
    the external RecurJac certification toolkit.

    Everything numeric is external to the adaptor: scalars (float32 values),
    the arithmetic of the two deep-learning frameworks and the bounding
    functions of the toolkit are parameters of the development, so the
    theorems hold for every interpretation of them. *)

From Stdlib Require Import ZArith QArith Qabs Lia.
From stdpp Require Import base list strings gmap pretty.

Set Default Proof Using "Type*".

(** ** Scalars *)

(** The operations the adaptor and the two frameworks apply to tensor
    entries.  No law is assumed about them. *)
Class Scalar (R : Type) := {
  s_zero : R;                 (* the literal 0.0 *)
  s_half : R;                 (* the literal 0.5, default of [upper] *)
  s_tiny : R;                 (* the literal 1e-4, default of [eps] *)
  s_add : R -> R -> R;
  s_mul : R -> R -> R;
  s_eqb : R -> R -> bool;     (* Python's == on floats *)
  s_leb : R -> R -> bool;     (* Python's <= on floats *)
  s_relu : R -> R;
  s_tanh : R -> R;
  s_leaky : R -> R -> R       (* slope, then argument *)
}.

(** ** Exceptions *)

Inductive exn :=
| NotImplementedError
| AssertionError
| KeyError
| IndexError
| ValueError.

Inductive result (A : Type) :=
| Ok (a : A)
| Raise (e : exn).
Arguments Ok {A} a.
Arguments Raise {A} e.

#[global] Instance result_ret : MRet result := fun A a => Ok a.
#[global] Instance result_bind : MBind result := fun A B f m =>
  match m with
  | Ok a => f a
  | Raise e => Raise e
  end.

(** The body of a Python [for] loop that may raise, run over a list. *)
Fixpoint for_each {S X} (body : S -> X -> result S) (xs : list X) (s : S)
  : result S :=
  match xs with
  | [] => Ok s
  | x :: xs' => body s x ≫= for_each body xs'
  end.

(** ** Tensors *)

(** A rank-2 tensor: its shape and its rows. *)
Record tensor2 (R : Type) := Tensor2 {
  t_rows : nat;
  t_cols : nat;
  t_data : list (list R)
}.
Arguments Tensor2 {R} _ _ _.
Arguments t_rows {R} _.
Arguments t_cols {R} _.
Arguments t_data {R} _.

Definition tensor2_wf {R} (w : tensor2 R) : Prop :=
  length (t_data w) = t_rows w /\
  Forall (fun row => length row = t_cols w) (t_data w).

Section Tensors.
Context {R : Type} `{Scalar R}.

Definition column (j : nat) (rows : list (list R)) : list R :=
  map (fun row => nth j row s_zero) rows.

(** [weight.t()] *)
Definition tensor_t (w : tensor2 R) : tensor2 R :=
  Tensor2 (t_cols w) (t_rows w)
          (map (fun c => column c (t_data w)) (seq 0 (t_cols w))).

(** sum_i x_i * w_i, accumulated from the left *)
Definition dot (x w : list R) : R :=
  fold_left (fun acc p => s_add acc (s_mul (fst p) (snd p)))
            (combine x w) s_zero.
End Tensors.

(** ** The layers of the two frameworks *)

(** A torch module as [torch2keras] tells them apart.  [nn_Linear] carries
    the attributes the source reads ([in_features], [out_features],
    [weight], [bias]; the layer is built with torch's default [bias=True]);
    [nn_Other] stands for every module class the conversion has no case
    for (convolutions, sigmoid, ...). *)
Inductive torch_layer (R : Type) :=
| nn_Flatten
| nn_Linear (in_features out_features : nat) (weight : tensor2 R)
            (bias : list R)
| nn_ReLU
| nn_Tanh
| nn_LeakyReLU (negative_slope : R)
| nn_Dropout (p : R)
| nn_Other (class_name : string).
Arguments nn_Flatten {R}.
Arguments nn_Linear {R} _ _ _ _.
Arguments nn_ReLU {R}.
Arguments nn_Tanh {R}.
Arguments nn_LeakyReLU {R} _.
Arguments nn_Dropout {R} _.
Arguments nn_Other {R} _.

(** A keras layer.  A [Dense] layer has no known parameters until
    [set_weights] stores a kernel and a bias in it. *)
Inductive keras_layer (R : Type) :=
| keras_Flatten (input_shape : list nat)
| keras_Dense (units : nat) (params : option (tensor2 R * list R))
| keras_Activation (fn : string) (name : string)
| keras_LeakyReLU (alpha : R) (name : string).
Arguments keras_Flatten {R} _.
Arguments keras_Dense {R} _ _.
Arguments keras_Activation {R} _ _.
Arguments keras_LeakyReLU {R} _ _.

(** [keras.Sequential]: the layers in the order they were added. *)
Abbreviation Sequential R := (list (keras_layer R)) (only parsing).

Definition seq_add {R} (ans : Sequential R) (l : keras_layer R)
  : Sequential R := ans ++ [l].

(** The width of the tensor a layer puts out, given the width [d] it
    is fed: a Dense layer has one entry per unit, the other layers keep
    the width. *)
Definition layer_output {R} (l : keras_layer R) (d : nat) : nat :=
  match l with
  | keras_Dense o _ => o
  | _ => d
  end.

(** The width of the tensor a [Sequential] model puts out, as keras
    infers it while layers are added; [None] while the model is not
    built.  A [Sequential] model is built by its first layer when that
    layer carries an [input_shape], and then every layer added is built
    on the output of the one before; a model whose first layer carries no
    [input_shape] stays unbuilt, and so do the layers added to it. *)
Definition model_output {R} (model : Sequential R) : option nat :=
  match model with
  | keras_Flatten input_shape :: rest =>
      Some (fold_left (fun d l => layer_output l d) rest
                      (fold_right Nat.mul 1 input_shape))
  | _ => None
  end.

(** [l.set_weights([kernel, bias])] on the layer object stored at
    position [i] of the model.  The layer [l] was added to the model just
    before, so the assignment is seen through the model.  keras raises
    ValueError unless the layer has been built (it then owns a kernel of
    shape (width fed to it, units) and a bias of shape (units)) and the
    arrays given have these shapes. *)
Definition set_weights {R} (ans : Sequential R) (i : nat)
    (kernel : tensor2 R) (bias : list R) : result (Sequential R) :=
  match model_output (take i ans), ans !! i with
  | Some d, Some (keras_Dense o _) =>
      if decide (t_rows kernel = d /\ t_cols kernel = o /\ length bias = o)
      then Ok (alter (fun l => match l with
                               | keras_Dense o _ =>
                                   keras_Dense o (Some (kernel, bias))
                               | other => other
                               end) i ans)
      else Raise ValueError
  | _, _ => Raise ValueError
  end.

(** ** torch2keras *)

(** The local variables of the conversion loop. *)
Record t2k_state (R : Type) := T2K {
  ans : Sequential R;
  n : nat;
  activation : list string;
  activation_param : option R
}.
Arguments T2K {R} _ _ _ _.
Arguments ans {R} _.
Arguments n {R} _.
Arguments activation {R} _.
Arguments activation_param {R} _.

Section Torch2Keras.
Context {R : Type} `{Scalar R}.
(** [datasets.get_input_shape], defined outside this file. *)
Variable get_input_shape : string -> list nat.

Definition t2k_body (input_shape : list nat) (st : t2k_state R)
    (layer : torch_layer R) : result (t2k_state R) :=
  let n := S (n st) in
  match layer with
  | nn_Flatten =>
      Ok (T2K (seq_add (ans st) (keras_Flatten input_shape)) n
              (activation st) (activation_param st))
  | nn_Linear i o weight bias =>
      let l := keras_Dense o None in
      let pos := length (ans st) in
      let ans1 := seq_add (ans st) l in
      ans2 ← set_weights ans1 pos (tensor_t weight) bias;
      Ok (T2K ans2 n (activation st) (activation_param st))
  | nn_ReLU =>
      Ok (T2K (seq_add (ans st)
                 (keras_Activation "relu" ("relu_" +:+ pretty n))) n
              (activation st ++ ["relu"]) (activation_param st))
  | nn_Tanh =>
      Ok (T2K (seq_add (ans st)
                 (keras_Activation "tanh" ("tanh_" +:+ pretty n))) n
              (activation st ++ ["tanh"]) (activation_param st))
  | nn_LeakyReLU negative_slope =>
      Ok (T2K (seq_add (ans st)
                 (keras_LeakyReLU negative_slope ("leaky_" +:+ pretty n))) n
              (activation st ++ ["leaky"]) (Some negative_slope))
  | nn_Dropout _ =>
      (* ignored: the model is only used for evaluation *)
      Ok (T2K (ans st) n (activation st) (activation_param st))
  | nn_Other _ => Raise NotImplementedError
  end.

Definition torch2keras (dataset : string) (model : list (torch_layer R))
  : result (Sequential R * string * option R) :=
  let input_shape := get_input_shape dataset in
  st ← for_each (t2k_body input_shape) model (T2K [] 0 [] None);
  (* only one type of activation is permitted *)
  let activation := elements (list_to_set (activation st) : gset string) in
  if decide (length activation = 1) then
    match activation with
    | a :: _ => Ok (ans st, a, activation_param st)
    | [] => Raise IndexError
    end
  else Raise AssertionError.

(** The loop of [torch2keras] runs through the whole model: no layer
    makes it raise. *)
Definition loop_completes (dataset : string) (model : list (torch_layer R))
  : Prop :=
  exists st,
    for_each (t2k_body (get_input_shape dataset)) model (T2K [] 0 [] None)
    = Ok st.
End Torch2Keras.

(** ** What the two frameworks compute

    The forward pass of a torch [Sequential] in evaluation mode and of a
    keras [Sequential], on one flattened sample.  [None] is a shape error
    (or a layer outside the fragment). *)

Section Forward.
Context {R : Type} `{Scalar R}.

(** torch: [Linear] is x W^T + b, [Dropout] is the identity in
    evaluation mode. *)
Definition torch_apply (layer : torch_layer R) (x : list R)
  : option (list R) :=
  match layer with
  | nn_Flatten => Some x
  | nn_Linear i o weight bias =>
      if decide (length x = i)
      then Some (zip_with s_add (map (dot x) (t_data weight)) bias)
      else None
  | nn_ReLU => Some (map s_relu x)
  | nn_Tanh => Some (map s_tanh x)
  | nn_LeakyReLU a => Some (map (s_leaky a) x)
  | nn_Dropout _ => Some x
  | nn_Other _ => None
  end.

Fixpoint torch_forward (model : list (torch_layer R)) (x : list R)
  : option (list R) :=
  match model with
  | [] => Some x
  | l :: rest => torch_apply l x ≫= torch_forward rest
  end.

(** keras: [Dense] is x K + b for the stored kernel K. *)
Definition keras_apply (layer : keras_layer R) (x : list R)
  : option (list R) :=
  match layer with
  | keras_Flatten _ => Some x
  | keras_Dense _ (Some (kernel, bias)) =>
      if decide (length x = t_rows kernel)
      then Some (zip_with s_add
                   (map (fun j => dot x (column j (t_data kernel)))
                        (seq 0 (t_cols kernel)))
                   bias)
      else None
  | keras_Dense _ None => None
  | keras_Activation fn _ =>
      if decide (fn = "relu") then Some (map s_relu x)
      else if decide (fn = "tanh") then Some (map s_tanh x)
      else None
  | keras_LeakyReLU alpha _ => Some (map (s_leaky alpha) x)
  end.

Fixpoint keras_forward (model : Sequential R) (x : list R)
  : option (list R) :=
  match model with
  | [] => Some x
  | l :: rest => keras_apply l x ≫= keras_forward rest
  end.

(** The shape invariant of a torch [Linear(i, o)]: its weight is an
    o-by-i matrix. *)
Definition layer_wf (layer : torch_layer R) : Prop :=
  match layer with
  | nn_Linear i o weight _ =>
      tensor2_wf weight /\ t_rows weight = o /\ t_cols weight = i
  | _ => True
  end.

Definition supported (layer : torch_layer R) : Prop :=
  match layer with
  | nn_Other _ => False
  | _ => True
  end.

Definition activation_kind (layer : torch_layer R) : option string :=
  match layer with
  | nn_ReLU => Some "relu"
  | nn_Tanh => Some "tanh"
  | nn_LeakyReLU _ => Some "leaky"
  | _ => None
  end.

(** The activation kind of every activation layer of a model. *)
Definition activation_kinds (model : list (torch_layer R)) : list string :=
  omap activation_kind model.

(** The model's activation layers use exactly one activation kind. *)
Definition one_kind (ks : list string) : Prop :=
  exists k, k ∈ ks /\ forall x, x ∈ ks -> x = k.

(** The conversion as the specification words it: the keras layers that
    the torch layer at (1-based) position [pos] becomes. *)
Definition spec_layer (input_shape : list nat) (pos : nat)
    (layer : torch_layer R) : list (keras_layer R) :=
  match layer with
  | nn_Flatten => [keras_Flatten input_shape]
  | nn_Linear _ o weight bias =>
      [keras_Dense o (Some (tensor_t weight, bias))]
  | nn_ReLU => [keras_Activation "relu" ("relu_" +:+ pretty pos)]
  | nn_Tanh => [keras_Activation "tanh" ("tanh_" +:+ pretty pos)]
  | nn_LeakyReLU a => [keras_LeakyReLU a ("leaky_" +:+ pretty pos)]
  | nn_Dropout _ => []
  | nn_Other _ => []
  end.

Fixpoint spec_layers (input_shape : list nat) (done : nat)
    (model : list (torch_layer R)) : Sequential R :=
  match model with
  | [] => []
  | l :: rest =>
      spec_layer input_shape (S done) l
        ++ spec_layers input_shape (S done) rest
  end.
End Forward.

(** ** The external toolkit *)

(** The value of [norm]: the table maps a norm type to 1, 2 or [np.inf]. *)
Inductive norm_val :=
| norm_int (p : Z)
| norm_inf.

Definition norm_table : gmap string norm_val :=
  {[ "1" := norm_int 1; "2" := norm_int 2; "inf" := norm_inf ]}.

(** The three norm types of the table. *)
Inductive norm_key := L1 | L2 | Linf.

Definition key_str (k : norm_key) : string :=
  match k with
  | L1 => "1"
  | L2 => "2"
  | Linf => "inf"
  end.

Definition norm_of (k : norm_key) : norm_val :=
  match k with
  | L1 => norm_int 1
  | L2 => norm_int 2
  | Linf => norm_inf
  end.

(** [RecurBaseModel]: the converted model and what its constructor
    extracts from it.  The gradient tensors it also prepares are handles
    into the keras backend and play no part below. *)
Record RecurBaseModel (R : Type) := {
  rbm_model : Sequential R;
  rbm_activation : string;
  rbm_activation_param : option R;
  rbm_U : list (keras_layer R);
  rbm_W : keras_layer R;
  rbm_layer_outputs : list (keras_layer R)
}.
Arguments rbm_model {R} _.
Arguments rbm_activation {R} _.
Arguments rbm_activation_param {R} _.
Arguments rbm_U {R} _.
Arguments rbm_W {R} _.
Arguments rbm_layer_outputs {R} _.

(** The arguments of the three bounding functions, in call order. *)
Record cbi_args (R : Type) := {
  cbi_weights : list (tensor2 R);
  cbi_biases : list (list R);
  cbi_pred_label : nat;
  cbi_target_label : Z;
  cbi_x0 : list R;
  cbi_predictions : list R;
  cbi_numlayer : nat;
  cbi_p : norm_val;
  cbi_eps : R;
  cbi_steps : nat;
  cbi_layerbndalg : string;
  cbi_jacbndalg : option string;
  cbi_untargeted : bool;
  cbi_activation : string;
  cbi_activation_param : option R;
  cbi_lipsdir : Z;
  cbi_lipsshift : Z
}.

Record cb_args (R : Type) := {
  cb_weights : list (tensor2 R);
  cb_biases : list (list R);
  cb_pred_label : nat;
  cb_target_label : Z;
  cb_x0 : list R;
  cb_predictions : list R;
  cb_numlayer : nat;
  cb_p : norm_val;
  cb_eps : R;
  cb_layerbndalg : string;
  cb_jacbndalg : string;
  cb_untargeted : bool;
  cb_use_quad : bool;
  cb_activation : string;
  cb_activation_param : option R;
  cb_bounded_input : bool
}.

Record sb_args (R : Type) := {
  sb_weights : list (tensor2 R);
  sb_biases : list (list R);
  sb_pred_label : nat;
  sb_target_label : Z;
  sb_x0 : list R;
  sb_predictions : list R;
  sb_numlayer : nat;
  sb_activation : string;
  sb_p : norm_val;
  sb_untargeted : bool
}.

(** One entry per call that leaves the adaptor. *)
Inductive event (R : Type) :=
| ev_predict (model : Sequential R) (input : list R)
| ev_compute_bounds_integral (a : cbi_args R)
| ev_compute_bounds (a : cb_args R)
| ev_spectral_bound (a : sb_args R)
| ev_binary_search (start : R) (max_steps : nat).
Arguments ev_predict {R} _ _.
Arguments ev_compute_bounds_integral {R} _.
Arguments ev_compute_bounds {R} _.
Arguments ev_spectral_bound {R} _.
Arguments ev_binary_search {R} _ _.

Definition is_bound_call {R} (e : event R) : Prop :=
  match e with
  | ev_compute_bounds_integral _ | ev_compute_bounds _
  | ev_spectral_bound _ => True
  | _ => False
  end.

Definition is_binary_search {R} (e : event R) : bool :=
  match e with
  | ev_binary_search _ _ => true
  | _ => false
  end.

(** A computation that calls out: its value and the calls it made. *)
Definition logged (R A : Type) : Type := A * list (event R).

(** Everything the adaptor imports.  [aux] is the type of the results the
    adaptor discards.  [binary_search cond start max_steps] receives the
    predicate as a logged computation and answers with the calls it had
    the predicate make. *)
Class Toolkit (R : Type) := {
  aux : Type;
  get_input_shape : string -> list nat;
  get_weights_list : RecurBaseModel R -> list (tensor2 R) * list (list R);
  keras_predict : Sequential R -> list R -> list R;
  argmax : list R -> nat;
  compute_bounds_integral : cbi_args R -> R;
  compute_bounds : cb_args R -> R * aux * aux * aux;
  spectral_bound : sb_args R -> R * aux;
  binary_search : (R -> logged R (bool * R)) -> R -> nat -> logged R R
}.

(** ** The adaptor objects *)

Inductive adaptor_class :=
| RecurJacBase
| FastLipAdaptor
| RecurJacAdaptor
| SpectralAdaptor
| FastLinAdaptor.

#[global] Instance adaptor_class_eq_dec : EqDecision adaptor_class.
Proof. solve_decision. Defined.

(** The attributes of [self]. *)
Record adaptor (R : Type) := Adaptor {
  cls : adaptor_class;
  self_model : RecurBaseModel R;
  weights : list (tensor2 R);
  biases : list (list R);
  lipsteps : nat;
  layerbndalg : string;
  bounded_input : bool;
  jacbndalg : option string;
  lipsdir : Z;
  lipsshift : Z;
  steps : nat
}.
Arguments Adaptor {R} _ _ _ _ _ _ _ _ _ _ _.
Arguments cls {R} _.
Arguments self_model {R} _.
Arguments weights {R} _.
Arguments biases {R} _.
Arguments lipsteps {R} _.
Arguments layerbndalg {R} _.
Arguments bounded_input {R} _.
Arguments jacbndalg {R} _.
Arguments lipsdir {R} _.
Arguments lipsshift {R} _.
Arguments steps {R} _.

(** What [verify] hands back: Python tells a bool from a float. *)
Inductive pyval (R : Type) :=
| PyBool (b : bool)
| PyFloat (r : R).
Arguments PyBool {R} b.
Arguments PyFloat {R} r.

(** A method: it may raise, it may assign attributes of [self], and it
    logs its external calls. *)
Definition method (R A : Type) : Type :=
  adaptor R -> result A * adaptor R * list (event R).

#[global] Instance method_ret {R} : MRet (method R) :=
  fun A a self => (Ok a, self, []).
#[global] Instance method_bind {R} : MBind (method R) :=
  fun A B f m self =>
    match m self with
    | (Ok a, self1, log1) =>
        let '(r, self2, log2) := f a self1 in (r, self2, log1 ++ log2)
    | (Raise e, self1, log1) => (Raise e, self1, log1)
    end.

Definition get_self {R} : method R (adaptor R) :=
  fun self => (Ok self, self, []).
Definition raise {R A} (e : exn) : method R A :=
  fun self => (Raise e, self, []).
Definition call {R A} (c : logged R A) : method R A :=
  fun self => (Ok (fst c), self, snd c).

Definition returned {R A} (out : result A * adaptor R * list (event R))
  : result A := fst (fst out).
Definition self_after {R A} (out : result A * adaptor R * list (event R))
  : adaptor R := snd (fst out).
Definition calls {R A} (out : result A * adaptor R * list (event R))
  : list (event R) := snd out.

Section Adaptors.
Context {R : Type} `{Scalar R} `{Toolkit R}.

Definition is_Dense (l : keras_layer R) : bool :=
  match l with
  | keras_Dense _ _ => true
  | _ => false
  end.

(** [RecurBaseModel.__init__] *)
Definition RecurBaseModel_init (dataset : string)
    (model : list (torch_layer R)) : result (RecurBaseModel R) :=
  '(m, activation, activation_param) ←
    torch2keras get_input_shape dataset model;
  (* extract weights *)
  let U := List.filter is_Dense m in
  match last U with                                   (* U[-1] *)
  | None => Raise IndexError
  | Some W =>
      Ok {| rbm_model := m;
            rbm_activation := activation;
            rbm_activation_param := activation_param;
            rbm_U := removelast U;                    (* U[:-1] *)
            rbm_W := W;
            rbm_layer_outputs := List.filter is_Dense m |}
  end.

(** [RecurJacBase.__init__], run for an object of class [c].  The
    constructor of the imported base class [Adaptor] runs first; every
    attribute read below is assigned here, after it. *)
Definition RecurJacBase_init (c : adaptor_class) (dataset : string)
    (model : list (torch_layer R)) : result (adaptor R) :=
  m ← RecurBaseModel_init dataset model;
  let '(weights, biases) := get_weights_list m in
  Ok {| cls := c;
        self_model := m;
        weights := weights;
        biases := biases;
        (* hyperparameters *)
        lipsteps := 15;
        layerbndalg := if decide (rbm_activation m = "relu")
                       then "crown-adaptive" else "crown-general";
        bounded_input := true;
        jacbndalg := None;
        lipsdir := -1;
        lipsshift := 1;
        steps := 15 |}.

(** Attribute assignments [self.jacbndalg = v], [self.layerbndalg = v]. *)
Definition set_jacbndalg (v : option string) (self : adaptor R)
  : adaptor R :=
  Adaptor (cls self) (self_model self) (weights self) (biases self)
          (lipsteps self) (layerbndalg self) (bounded_input self) v
          (lipsdir self) (lipsshift self) (steps self).

Definition set_layerbndalg (v : string) (self : adaptor R) : adaptor R :=
  Adaptor (cls self) (self_model self) (weights self) (biases self)
          (lipsteps self) v (bounded_input self) (jacbndalg self)
          (lipsdir self) (lipsshift self) (steps self).

Definition FastLipAdaptor_init dataset model : result (adaptor R) :=
  self ← RecurJacBase_init FastLipAdaptor dataset model;
  Ok (set_jacbndalg (Some "fastlip") self).

Definition RecurJacAdaptor_init dataset model : result (adaptor R) :=
  self ← RecurJacBase_init RecurJacAdaptor dataset model;
  Ok (set_jacbndalg (Some "recurjac") self).

Definition SpectralAdaptor_init dataset model : result (adaptor R) :=
  self ← RecurJacBase_init SpectralAdaptor dataset model;
  Ok (set_layerbndalg "spectral" self).

Definition FastLinAdaptor_init dataset model : result (adaptor R) :=
  self ← RecurJacBase_init FastLinAdaptor dataset model;
  Ok (set_layerbndalg "fastlin" (set_jacbndalg (Some "disable") self)).

(** Instantiating class [c]. *)
Definition new (c : adaptor_class) (dataset : string)
    (model : list (torch_layer R)) : result (adaptor R) :=
  match c with
  | RecurJacBase => RecurJacBase_init RecurJacBase dataset model
  | FastLipAdaptor => FastLipAdaptor_init dataset model
  | RecurJacAdaptor => RecurJacAdaptor_init dataset model
  | SpectralAdaptor => SpectralAdaptor_init dataset model
  | FastLinAdaptor => FastLinAdaptor_init dataset model
  end.

(** [{'1': 1, '2': 2, 'inf': np.inf}[norm_type]] *)
Definition lookup_norm (norm_type : string) : method R norm_val :=
  match norm_table !! norm_type with
  | Some norm => mret norm
  | None => raise KeyError
  end.

(** [self.model.model.predict(...)], then [preds[0]] *)
Definition predict (self : adaptor R) (input : list R)
  : logged R (list R) :=
  let m := rbm_model (self_model self) in
  (keras_predict m input, [ev_predict m input]).

Definition bounds_integral_args (self : adaptor R) (pred_label : nat)
    (input pred : list R) (norm : norm_val) (eps : R) : cbi_args R :=
  {| cbi_weights := weights self;
     cbi_biases := biases self;
     cbi_pred_label := pred_label;
     cbi_target_label := -1;
     cbi_x0 := input;
     cbi_predictions := pred;
     cbi_numlayer := length (weights self);
     cbi_p := norm;
     cbi_eps := eps;
     cbi_steps := lipsteps self;
     cbi_layerbndalg := layerbndalg self;
     cbi_jacbndalg := jacbndalg self;
     cbi_untargeted := true;
     cbi_activation := rbm_activation (self_model self);
     cbi_activation_param := rbm_activation_param (self_model self);
     cbi_lipsdir := lipsdir self;
     cbi_lipsshift := lipsshift self |}.

Definition bounds_args (self : adaptor R) (pred_label : nat)
    (input pred : list R) (norm : norm_val) (eps : R) : cb_args R :=
  {| cb_weights := weights self;
     cb_biases := biases self;
     cb_pred_label := pred_label;
     cb_target_label := -1;
     cb_x0 := input;
     cb_predictions := pred;
     cb_numlayer := length (weights self);
     cb_p := norm;
     cb_eps := eps;
     cb_layerbndalg := layerbndalg self;
     cb_jacbndalg := "disable";
     cb_untargeted := true;
     cb_use_quad := false;
     cb_activation := rbm_activation (self_model self);
     cb_activation_param := rbm_activation_param (self_model self);
     cb_bounded_input := true |}.

Definition spectral_args (self : adaptor R) (pred_label : nat)
    (input pred : list R) (norm : norm_val) : sb_args R :=
  {| sb_weights := weights self;
     sb_biases := biases self;
     sb_pred_label := pred_label;
     sb_target_label := -1;
     sb_x0 := input;
     sb_predictions := pred;
     sb_numlayer := length (weights self);
     sb_activation := rbm_activation (self_model self);
     sb_p := norm;
     sb_untargeted := true |}.

Definition call_bounds_integral (a : cbi_args R) : logged R R :=
  (compute_bounds_integral a, [ev_compute_bounds_integral a]).

(** [gap_gx, _, _, _ = compute_bounds(...)] *)
Definition call_bounds (a : cb_args R) : logged R R :=
  let '(gap_gx, _, _, _) := compute_bounds a in
  (gap_gx, [ev_compute_bounds a]).

(** [robustness_lb, _ = spectral_bound(...)] *)
Definition call_spectral (a : sb_args R) : logged R R :=
  let '(robustness_lb, _) := spectral_bound a in
  (robustness_lb, [ev_spectral_bound a]).

Definition call_binary_search (cond : R -> logged R (bool * R))
    (start : R) (max_steps : nat) : logged R R :=
  let '(found, inner) := binary_search cond start max_steps in
  (found, ev_binary_search start max_steps :: inner).

(** The two predicates handed to [binary_search]. *)
Definition jacobian_cond (self : adaptor R) (pred_label : nat)
    (input pred : list R) (norm : norm_val) (current_eps : R)
  : logged R (bool * R) :=
  let '(robustness_lb, log) :=
    call_bounds_integral
      (bounds_integral_args self pred_label input pred norm current_eps) in
  ((s_eqb robustness_lb current_eps, robustness_lb), log).

Definition linear_cond (self : adaptor R) (pred_label : nat)
    (input pred : list R) (norm : norm_val) (current : R)
  : logged R (bool * R) :=
  let '(gap_gx, log) :=
    call_bounds (bounds_args self pred_label input pred norm current) in
  ((s_leb s_zero gap_gx, gap_gx), log).

(** [RecurJacBase.verify] *)
Definition RecurJacBase_verify (input : list R) (label : Z)
    (norm_type : string) (radius : R) : method R (pyval R) :=
  norm ← lookup_norm norm_type;
  self ← get_self;
  pred ← call (predict self input);
  let pred_label := argmax pred in
  if decide (Z.of_nat pred_label ≠ label) then
    mret (PyFloat s_zero)
  else
    if decide (jacbndalg self ≠ Some "disable") then
      robustness_lb ←
        call (call_bounds_integral
                (bounds_integral_args self pred_label input pred norm
                                      radius));
      mret (PyBool (s_eqb robustness_lb radius))
    else
      gap_gx ←
        call (call_bounds
                (bounds_args self pred_label input pred norm radius));
      mret (PyBool (s_leb s_zero gap_gx)).

(** [RecurJacBase.calc_radius] *)
Definition RecurJacBase_calc_radius (input : list R) (label : Z)
    (norm_type : string) (upper eps : R) : method R R :=
  norm ← lookup_norm norm_type;
  self ← get_self;
  pred ← call (predict self input);
  let pred_label := argmax pred in
  if decide (Z.of_nat pred_label ≠ label) then
    mret s_zero
  else
    if decide (jacbndalg self ≠ Some "disable") then
      (* perform binary search to adaptively find a good eps *)
      call (call_binary_search
              (jacobian_cond self pred_label input pred norm)
              upper (steps self))
    else
      (* use linear outer bounds to verify robustness *)
      call (call_binary_search
              (linear_cond self pred_label input pred norm)
              eps (steps self)).

(** [SpectralAdaptor.calc_radius] *)
Definition SpectralAdaptor_calc_radius (input : list R) (label : Z)
    (norm_type : string) (upper eps : R) : method R R :=
  norm ← lookup_norm norm_type;
  self ← get_self;
  pred ← call (predict self input);
  let pred_label := argmax pred in
  if decide (Z.of_nat pred_label ≠ label) then
    mret s_zero
  else
    call (call_spectral (spectral_args self pred_label input pred norm)).

(** [self.calc_radius(...)]: the method of the object's class. *)
Definition calc_radius (input : list R) (label : Z) (norm_type : string)
    (upper eps : R) : method R R :=
  self ← get_self;
  match cls self with
  | SpectralAdaptor =>
      SpectralAdaptor_calc_radius input label norm_type upper eps
  | _ => RecurJacBase_calc_radius input label norm_type upper eps
  end.

(** [SpectralAdaptor.verify]; [calc_radius] runs with its defaults. *)
Definition SpectralAdaptor_verify (input : list R) (label : Z)
    (norm_type : string) (radius : R) : method R (pyval R) :=
  found ← calc_radius input label norm_type s_half s_tiny;
  mret (PyBool (s_leb radius found)).

(** [self.verify(...)] *)
Definition verify (input : list R) (label : Z) (norm_type : string)
    (radius : R) : method R (pyval R) :=
  self ← get_self;
  match cls self with
  | SpectralAdaptor => SpectralAdaptor_verify input label norm_type radius
  | _ => RecurJacBase_verify input label norm_type radius
  end.
End Adaptors.

(** ** A concrete instance

    Rational scalars and stand-ins for the imported functions, to run the
    adaptor on concrete inputs. *)

Module Sample.

Definition relu (x : Q) : Q := if Qle_bool 0 x then x else 0%Q.
Definition leaky (a x : Q) : Q := if Qle_bool 0 x then x else (a * x)%Q.
(** tanh has no rational value; the sample models do not use it. *)
Definition softsign (x : Q) : Q := (x / (1 + Qabs x))%Q.

#[export] Instance Q_scalar : Scalar Q := {|
  s_zero := 0%Q;
  s_half := (1 # 2)%Q;
  s_tiny := (1 # 10000)%Q;
  s_add := Qplus;
  s_mul := Qmult;
  s_eqb := Qeq_bool;
  s_leb := Qle_bool;
  s_relu := relu;
  s_tanh := softsign;
  s_leaky := leaky
|}.

Fixpoint argmax_from (best_i : nat) (best : Q) (i : nat) (l : list Q)
  : nat :=
  match l with
  | [] => best_i
  | x :: rest =>
      if Qle_bool x best then argmax_from best_i best (S i) rest
      else argmax_from i x (S i) rest
  end.

Definition sample_argmax (l : list Q) : nat :=
  match l with
  | [] => 0
  | x :: rest => argmax_from 0 x 1 rest
  end.

Definition dense_params (l : keras_layer Q) : option (tensor2 Q * list Q) :=
  match l with
  | keras_Dense _ p => p
  | _ => None
  end.

Definition sample_get_weights_list (m : RecurBaseModel Q)
  : list (tensor2 Q) * list (list Q) :=
  let ps := omap dense_params (rbm_U m ++ [rbm_W m]) in
  (map (fun p => tensor_t (fst p)) ps, map snd ps).

(** A stand-in for the search helper: [fuel] halvings of [lo, hi], keeping
    the log of the predicate's calls. *)
Fixpoint bisect (cond : Q -> logged Q (bool * Q)) (lo hi : Q)
    (fuel : nat) (log : list (event Q)) : logged Q Q :=
  match fuel with
  | 0 => (lo, log)
  | S fuel' =>
      let mid := Qred ((lo + hi) / 2)%Q in
      let '((ok, _), l) := cond mid in
      if ok then bisect cond mid hi fuel' (log ++ l)
      else bisect cond lo mid fuel' (log ++ l)
  end.

(** A toolkit that certifies every radius up to [cap] and reports
    [sbound] as its spectral bound. *)
Definition sample_toolkit (cap sbound : Q) : Toolkit Q := {|
  aux := unit;
  get_input_shape := fun _ => [1; 1; 2];
  get_weights_list := sample_get_weights_list;
  keras_predict := fun m x => default [] (keras_forward m x);
  argmax := sample_argmax;
  compute_bounds_integral := fun a =>
    if Qle_bool (cbi_eps Q a) cap then cbi_eps Q a else cap;
  compute_bounds := fun a => ((cap - cb_eps Q a)%Q, tt, tt, tt);
  spectral_bound := fun a => (sbound, tt);
  binary_search := fun cond start max_steps =>
    bisect cond 0%Q start max_steps []
|}.

#[export] Instance toolkit : Toolkit Q :=
  sample_toolkit (3 # 10) 1.

(** Flatten, Linear(2,2), ReLU, Dropout, Linear(2,2). *)
Definition mlp : list (torch_layer Q) :=
  [ nn_Flatten;
    nn_Linear 2 2 (Tensor2 2 2 [[1; 2]; [0; 1]]%Q) [0; 1]%Q;
    nn_ReLU;
    nn_Dropout (1 # 2)%Q;
    nn_Linear 2 2 (Tensor2 2 2 [[1; -1]; [-1; 1]]%Q) [0; 0]%Q ].

(** What [torch2keras] makes of it. *)
Definition dense1 : keras_layer Q :=
  keras_Dense 2 (Some (Tensor2 2 2 [[1; 0]; [2; 1]]%Q, [0; 1]%Q)).
Definition dense2 : keras_layer Q :=
  keras_Dense 2 (Some (Tensor2 2 2 [[1; -1]; [-1; 1]]%Q, [0; 0]%Q)).

Definition mlp_keras : Sequential Q :=
  [ keras_Flatten [1; 1; 2]; dense1; keras_Activation "relu" "relu_3";
    dense2 ].

(** The adaptor objects the constructors build from it. *)
Definition mlp_model : RecurBaseModel Q :=
  {| rbm_model := mlp_keras;
     rbm_activation := "relu";
     rbm_activation_param := None;
     rbm_U := [dense1];
     rbm_W := dense2;
     rbm_layer_outputs := [dense1; dense2] |}.

Definition object (c : adaptor_class) (layerbndalg : string)
    (jacbndalg : option string) : adaptor Q :=
  {| cls := c;
     self_model := mlp_model;
     weights := [ Tensor2 2 2 [[1; 2]; [0; 1]]%Q;
                  Tensor2 2 2 [[1; -1]; [-1; 1]]%Q ];
     biases := [[0; 1]; [0; 0]]%Q;
     lipsteps := 15;
     layerbndalg := layerbndalg;
     bounded_input := true;
     jacbndalg := jacbndalg;
     lipsdir := -1;
     lipsshift := 1;
     steps := 15 |}.

Definition fastlip : adaptor Q :=
  object FastLipAdaptor "crown-adaptive" (Some "fastlip").
Definition recurjac : adaptor Q :=
  object RecurJacAdaptor "crown-adaptive" (Some "recurjac").
Definition spectral : adaptor Q :=
  object SpectralAdaptor "spectral" None.
Definition fastlin : adaptor Q :=
  object FastLinAdaptor "fastlin" (Some "disable").

(** An input the network labels 0. *)
Definition x0 : list Q := [3; 1]%Q.

End Sample.
Import Sample.


(** ** Views of the two models

    What the statements below read off a torch model and off the keras
    model made from it. *)

Section ModelViews.
Context {R : Type} `{Scalar R}.

Definition is_Linear (layer : torch_layer R) : bool :=
  match layer with
  | nn_Linear _ _ _ _ => true
  | _ => false
  end.

Definition is_Dropout (layer : torch_layer R) : bool :=
  match layer with
  | nn_Dropout _ => true
  | _ => false
  end.

(** The Dense layer a torch Linear layer is turned into. *)
Definition linear_image (layer : torch_layer R) : option (keras_layer R) :=
  match layer with
  | nn_Linear _ o weight bias =>
      Some (keras_Dense o (Some (tensor_t weight, bias)))
  | _ => None
  end.

Definition leaky_slope (layer : torch_layer R) : option R :=
  match layer with
  | nn_LeakyReLU negative_slope => Some negative_slope
  | _ => None
  end.

(** The [name=] the conversion gives to a keras layer. *)
Definition layer_name (l : keras_layer R) : option string :=
  match l with
  | keras_Activation _ name => Some name
  | keras_LeakyReLU _ name => Some name
  | _ => None
  end.

Definition erase_name (l : keras_layer R) : keras_layer R :=
  match l with
  | keras_Activation fn _ => keras_Activation fn ""
  | keras_LeakyReLU alpha _ => keras_LeakyReLU alpha ""
  | other => other
  end.

Definition without_dropout (model : list (torch_layer R))
  : list (torch_layer R) :=
  List.filter (fun l => negb (is_Dropout l)) model.

(** A Dense layer whose weights were set to a kernel with one column per
    unit. *)
Definition dense_ready (l : keras_layer R) : Prop :=
  match l with
  | keras_Dense o (Some (kernel, _)) => tensor2_wf kernel /\ t_cols kernel = o
  | keras_Dense _ None => False
  | _ => True
  end.

(** The assignment [self.bounded_input = v]. *)
Definition set_bounded_input (v : bool) (self : adaptor R) : adaptor R :=
  Adaptor (cls self) (self_model self) (weights self) (biases self)
          (lipsteps self) (layerbndalg self) v (jacbndalg self)
          (lipsdir self) (lipsshift self) (steps self).
End ModelViews.

(** The keys of the norm table. *)
Definition norm_keys : list string := ["1"; "2"; "inf"].

(** Two more sample networks: one with two LeakyReLU layers of different
    slopes, one without any Linear layer. *)
Definition leaky_mlp : list (torch_layer Q) :=
  [ nn_Flatten;
    nn_Linear 2 2 (Tensor2 2 2 [[1; 2]; [0; 1]]%Q) [0; 1]%Q;
    nn_LeakyReLU (1 # 10)%Q;
    nn_Linear 2 2 (Tensor2 2 2 [[1; -1]; [-1; 1]]%Q) [0; 0]%Q;
    nn_LeakyReLU (2 # 10)%Q ].

Definition flat_relu : list (torch_layer Q) := [nn_Flatten; nn_ReLU].

(** * Properties *)

(** ** The conversion loop *)

Section Torch2KerasFacts.
Context {R : Type} `{Scalar R}.
Implicit Types (st : t2k_state R) (model : list (torch_layer R)).

(** [set_weights] on the Dense layer just added goes through exactly when
    the model was built before and the arrays fit the layer. *)
Lemma set_weights_last (ans : Sequential R) o kernel bias :
  set_weights (seq_add ans (keras_Dense o None)) (length ans) kernel bias
  = match model_output ans with
    | Some d =>
        if decide (t_rows kernel = d /\ t_cols kernel = o /\ length bias = o)
        then Ok (ans ++ [keras_Dense o (Some (kernel, bias))])
        else Raise ValueError
    | None => Raise ValueError
    end.
Proof.
  unfold set_weights, seq_add.
  rewrite take_app_length, list_lookup_middle by done.
  destruct (model_output ans); [|done]. case_decide; [|done].
  rewrite alter_app_r_alt by lia. by rewrite Nat.sub_diag.
Qed.

(** The iteration on a Linear layer. *)
Lemma t2k_body_linear shape st i o w b :
  t2k_body shape st (nn_Linear i o w b)
  = match model_output (ans st) with
    | Some d =>
        if decide (t_rows (tensor_t w) = d /\ t_cols (tensor_t w) = o /\
                   length b = o)
        then Ok (T2K (ans st ++ [keras_Dense o (Some (tensor_t w, b))])
                     (S (n st)) (activation st) (activation_param st))
        else Raise ValueError
    | None => Raise ValueError
    end.
Proof.
  cbn [t2k_body]. rewrite set_weights_last.
  destruct (model_output (ans st)); [|done]. by case_decide.
Qed.

Lemma activation_kinds_cons l model :
  activation_kinds (l :: model)
  = from_option (fun k => [k]) [] (activation_kind l)
      ++ activation_kinds model.
Proof. unfold activation_kinds. simpl. by destruct (activation_kind l). Qed.

(** One iteration: what it appends, and that it only goes through on a
    layer with a case. *)
Lemma t2k_body_ok shape st l st' :
  t2k_body shape st l = Ok st' ->
  ans st' = ans st ++ spec_layer shape (S (n st)) l /\
  n st' = S (n st) /\
  activation st' = activation st
                     ++ from_option (fun k => [k]) [] (activation_kind l) /\
  supported l.
Proof.
  destruct l as [|i o w b| | |a|p|c].
  2:{ rewrite t2k_body_linear.
      destruct (model_output (ans st)); [|done]. case_decide; [|done].
      intros [= <-]. simpl. by rewrite app_nil_r. }
  all: simpl; intros Hb; inversion Hb; subst; clear Hb; simpl;
    rewrite ?app_nil_r; auto.
Qed.

Lemma t2k_body_unsupported shape st l :
  ~ supported l -> t2k_body shape st l = Raise NotImplementedError.
Proof. destruct l; simpl; intros Hs; try done; by destruct Hs. Qed.

Lemma for_each_app {S X} (body : S -> X -> result S) (xs ys : list X) :
  forall s, for_each body (xs ++ ys) s
            = for_each body xs s ≫= for_each body ys.
Proof.
  induction xs as [|x xs IH]; intros s; simpl; [done|].
  destruct (body s x); simpl; [apply IH | done].
Qed.

Lemma t2k_loop_ok shape model : forall st st',
  for_each (t2k_body shape) model st = Ok st' ->
  ans st' = ans st ++ spec_layers shape (n st) model /\
  activation st' = activation st ++ activation_kinds model /\
  Forall supported model.
Proof.
  induction model as [|l model IH]; intros st st' Hloop; simpl in Hloop.
  - injection Hloop as <-. by rewrite !app_nil_r.
  - destruct (t2k_body shape st l) as [st1|e] eqn:Hb; simpl in Hloop;
      [|done].
    apply t2k_body_ok in Hb as (Ha & Hn & Hk & Hs).
    apply IH in Hloop as (Ha' & Hk' & Hs').
    rewrite Ha', Hk', Ha, Hk, Hn, activation_kinds_cons, <- !app_assoc.
    auto.
Qed.

(** The loop raises NotImplementedError at the first layer without a
    case that it reaches. *)
Lemma t2k_loop_unsupported shape pre l post st st1 :
  for_each (t2k_body shape) pre st = Ok st1 ->
  ~ supported l ->
  for_each (t2k_body shape) (pre ++ l :: post) st
  = Raise NotImplementedError.
Proof.
  intros Hpre Hl. rewrite for_each_app, Hpre. simpl.
  by rewrite t2k_body_unsupported.
Qed.
End Torch2KerasFacts.

(** ** The set of activation kinds *)

Lemma kinds_size_one (ks : list string) :
  length (elements (list_to_set ks : gset string)) = 1 <-> one_kind ks.
Proof.
  change (size (list_to_set ks : gset string) = 1 <-> one_kind ks).
  split.
  - intros Hsz.
    destruct (size_1_elem_of (list_to_set ks : gset string) Hsz)
      as [k Hk].
    exists k. split.
    + apply (elem_of_list_to_set (C:=gset string)). rewrite Hk. set_solver.
    + intros x Hx.
      apply (elem_of_list_to_set (C:=gset string)) in Hx.
      rewrite Hk in Hx. set_solver.
  - intros (k & Hin & Hall).
    assert (list_to_set ks = ({[ k ]} : gset string)) as ->.
    { apply set_eq. intros x. rewrite elem_of_list_to_set, elem_of_singleton.
      split; [by apply Hall | by intros ->]. }
    apply size_singleton.
Qed.

Lemma kinds_head (ks : list string) a rest :
  elements (list_to_set ks : gset string) = a :: rest -> a ∈ ks.
Proof.
  intros He.
  apply (elem_of_list_to_set (C:=gset string)), elem_of_elements.
  rewrite He. by left.
Qed.

Lemma activation_kinds_range {R} (model : list (torch_layer R)) k :
  k ∈ activation_kinds model -> k ∈ ["relu"; "tanh"; "leaky"].
Proof.
  unfold activation_kinds. rewrite list_elem_of_omap.
  intros (l & _ & Hl). destruct l; simpl in Hl; inversion Hl; set_solver.
Qed.

Lemma not_one_kind (ks : list string) :
  ks = [] \/ (exists a b, a ∈ ks /\ b ∈ ks /\ a <> b) -> ~ one_kind ks.
Proof.
  intros [-> | (a & b & Ha & Hb & Hab)] (k & Hk & Hall).
  - by apply elem_of_nil in Hk.
  - apply Hab. by rewrite (Hall a Ha), (Hall b Hb).
Qed.

Section ConversionErrors.
Context {R : Type} `{Scalar R}.
Variable get_shape : string -> list nat.

(** How [torch2keras] ends once its loop has run through the model. *)
Lemma torch2keras_after_loop dataset (model : list (torch_layer R)) st :
  for_each (t2k_body (get_shape dataset)) model (T2K [] 0 [] None) = Ok st ->
  (~ one_kind (activation_kinds model) /\
   torch2keras get_shape dataset model = Raise AssertionError) \/
  (one_kind (activation_kinds model) /\
   exists act,
     act ∈ activation_kinds model /\
     (forall k, k ∈ activation_kinds model -> k = act) /\
     torch2keras get_shape dataset model
     = Ok (ans st, act, activation_param st)).
Proof.
  intros Hst. unfold torch2keras. rewrite Hst. simpl.
  apply t2k_loop_ok in Hst as (_ & Hk & _). simpl in Hk. rewrite Hk.
  case_decide as Hlen.
  - right. pose proof (proj1 (kinds_size_one _) Hlen) as Hone.
    destruct Hone as (k0 & Hk0 & Hall).
    destruct (elements _) as [|a rest] eqn:He; [done|].
    pose proof (kinds_head _ _ _ He) as Hin.
    split; [by exists k0|]. exists a. split_and!; try done.
    intros k Hin'. by rewrite (Hall k Hin'), (Hall a Hin).
  - left. split; [|done]. by rewrite <- kinds_size_one.
Qed.

(** What a returned result tells about the loop and the model. *)
Lemma torch2keras_ok_inv dataset (model : list (torch_layer R))
    layers act param :
  torch2keras get_shape dataset model = Ok (layers, act, param) ->
  exists st,
    for_each (t2k_body (get_shape dataset)) model (T2K [] 0 [] None)
    = Ok st /\
    layers = ans st /\ param = activation_param st /\
    act ∈ activation_kinds model /\
    (forall k, k ∈ activation_kinds model -> k = act).
Proof.
  intros Hok.
  destruct (for_each (t2k_body (get_shape dataset)) model (T2K [] 0 [] None))
    as [st|e] eqn:Hst;
    [|by unfold torch2keras in Hok; rewrite Hst in Hok].
  destruct (torch2keras_after_loop _ _ _ Hst)
    as [(_ & Hr)|(_ & a & Hin & Hall & Hr)];
    rewrite Hr in Hok; [done|].
  injection Hok as <- <- <-. by exists st.
Qed.

End ConversionErrors.

(** ** The converted model computes the same function *)

Section Refinement.
Context {R : Type} `{Scalar R}.
#[local] Arguments tensor_t : simpl never.

Lemma map_nth_seq {A} (l : list A) d :
  map (fun c => nth c l d) (seq 0 (length l)) = l.
Proof.
  induction l as [|a l IH]; simpl; [done|].
  f_equal. rewrite <- seq_shift, map_map. exact IH.
Qed.

(** Column [j] of the transpose is row [j] of the weight. *)
Lemma column_tensor_t (w : tensor2 R) j :
  tensor2_wf w -> j < t_rows w ->
  column j (t_data (tensor_t w)) = nth j (t_data w) [].
Proof.
  intros [Hrows Hcols] Hj. unfold column, tensor_t. simpl.
  rewrite map_map.
  transitivity (map (fun c => nth c (nth j (t_data w) []) s_zero)
                    (seq 0 (t_cols w))).
  - apply map_ext. intros c.
    rewrite (nth_indep _ s_zero (nth c [] s_zero))
      by (unfold column; rewrite length_map; lia).
    apply (map_nth (fun row => nth c row s_zero)).
  - assert (length (nth j (t_data w) []) = t_cols w) as <-.
    { rewrite Forall_forall in Hcols. apply Hcols.
      apply list_elem_of_In, nth_In. lia. }
    apply map_nth_seq.
Qed.

Lemma dense_transpose (w : tensor2 R) (x : list R) :
  tensor2_wf w ->
  map (fun j => dot x (column j (t_data (tensor_t w))))
      (seq 0 (t_cols (tensor_t w)))
  = map (dot x) (t_data w).
Proof.
  intros Hwf.
  transitivity (map (fun j => dot x (nth j (t_data w) []))
                    (seq 0 (length (t_data w)))).
  - pose proof Hwf as [Hrows Hcols].
    change (t_cols (tensor_t w)) with (t_rows w). rewrite Hrows.
    apply map_ext_in. intros j Hj. apply in_seq in Hj.
    rewrite column_tensor_t; [done | done | lia].
  - rewrite <- (map_map (fun j => nth j (t_data w) []) (dot x)).
    by rewrite map_nth_seq.
Qed.

Lemma keras_forward_app (a b : Sequential R) x :
  keras_forward (a ++ b) x = keras_forward a x ≫= keras_forward b.
Proof.
  revert x. induction a as [|l a IH]; intros x; simpl; [done|].
  destruct (keras_apply l x); simpl; [apply IH | done].
Qed.

Lemma forward_spec_layers shape (model : list (torch_layer R)) :
  Forall layer_wf model -> Forall supported model ->
  forall done x,
    keras_forward (spec_layers shape done model) x = torch_forward model x.
Proof.
  induction model as [|l model IH]; intros Hwf Hs k x; [done|].
  inversion Hwf as [|? ? Hl Hwf']; inversion Hs as [|? ? Hsl Hs']; subst.
  destruct l as [|i o w b| | |a|p|c];
    try (simpl; by apply IH); [|done].
  destruct Hl as (Hw & Hr & Hc).
  cbn [spec_layers spec_layer app keras_forward keras_apply
       torch_forward torch_apply].
  change (t_rows (tensor_t w)) with (t_cols w).
  rewrite Hc, dense_transpose by done.
  case_decide; simpl; [by apply IH | done].
Qed.

(** C1. Whenever [torch2keras] returns a keras model for a torch model
    (whose Linear layers carry an out-by-in weight), that model is the
    layer-by-layer image of the torch model -- Flatten to Flatten, Linear
    to Dense with the transposed weight and the same bias, ReLU, Tanh and
    LeakyReLU to the matching keras activation with the same slope, Dropout
    to nothing -- and its forward pass equals the torch model's forward
    pass in evaluation mode on every input. *)
Theorem torch2keras_same_function get_shape dataset
    (model : list (torch_layer R)) ans act param :
  Forall layer_wf model ->
  torch2keras get_shape dataset model = Ok (ans, act, param) ->
  ans = spec_layers (get_shape dataset) 0 model /\
  forall x, keras_forward ans x = torch_forward model x.
Proof.
  intros Hwf Hok. unfold torch2keras in Hok.
  destruct (for_each _ _ _) as [st|e] eqn:Hst; simpl in Hok; [|done].
  apply t2k_loop_ok in Hst as (Hans & _ & Hs). simpl in Hans.
  case_decide; [|done].
  destruct (elements _); [done|]. injection Hok as <- _ _.
  split; [done|]. intros x. rewrite Hans. by apply forward_spec_layers.
Qed.
End Refinement.

(** The sample network converts, and the converted network agrees with it. *)
Lemma torch2keras_same_function_witness :
  Forall layer_wf mlp /\
  torch2keras get_input_shape "toy" mlp = Ok (mlp_keras, "relu", None) /\
  mlp_keras = spec_layers (get_input_shape "toy") 0 mlp /\
  forall x, keras_forward mlp_keras x = torch_forward mlp x.
Proof.
  assert (Hwf : Forall layer_wf mlp) by (unfold mlp; repeat constructor).
  assert (Hok : torch2keras get_input_shape "toy" mlp
                = Ok (mlp_keras, "relu", None)) by (vm_compute; reflexivity).
  split; [exact Hwf|]. split; [exact Hok|].
  exact (torch2keras_same_function get_input_shape "toy" mlp mlp_keras
           "relu" None Hwf Hok).
Defined.



(** ** The adaptor methods, run *)

Section MethodRuns.
Context {R : Type} `{Scalar R} `{Toolkit R}.
Implicit Types (self : adaptor R) (input : list R) (label : Z) (k : norm_key).

Lemma norm_table_key k : norm_table !! key_str k = Some (norm_of k).
Proof. by destruct k. Qed.

Ltac run_method :=
  cbv [verify calc_radius RecurJacBase_verify RecurJacBase_calc_radius
       SpectralAdaptor_verify SpectralAdaptor_calc_radius lookup_norm
       mbind method_bind mret method_ret get_self raise call predict
       call_binary_search call_spectral call_bounds call_bounds_integral
       returned self_after calls fst snd];
  rewrite ?norm_table_key.

(** [RecurJacBase.verify] on a norm type of the table. *)
Lemma RecurJacBase_verify_run self input label k radius :
  let m := rbm_model (self_model self) in
  let pred := keras_predict m input in
  let a := bounds_integral_args self (argmax pred) input pred (norm_of k)
             radius in
  let b := bounds_args self (argmax pred) input pred (norm_of k) radius in
  RecurJacBase_verify input label (key_str k) radius self
  = if decide (Z.of_nat (argmax pred) ≠ label) then
      (Ok (PyFloat s_zero), self, [ev_predict m input])
    else if decide (jacbndalg self ≠ Some "disable") then
      (Ok (PyBool (s_eqb (compute_bounds_integral a) radius)), self,
       [ev_predict m input; ev_compute_bounds_integral a])
    else
      (Ok (PyBool (s_leb s_zero (compute_bounds b).1.1.1)), self,
       [ev_predict m input; ev_compute_bounds b]).
Proof.
  intros m pred a b. run_method. fold m pred.
  repeat case_decide; try done.
  fold b. by destruct (compute_bounds b) as [[[gap ?] ?] ?].
Qed.

(** [RecurJacBase.calc_radius] on a norm type of the table. *)
Lemma RecurJacBase_calc_radius_run self input label k upper eps :
  let m := rbm_model (self_model self) in
  let pred := keras_predict m input in
  let jac := binary_search
               (jacobian_cond self (argmax pred) input pred (norm_of k))
               upper (steps self) in
  let lin := binary_search
               (linear_cond self (argmax pred) input pred (norm_of k))
               eps (steps self) in
  RecurJacBase_calc_radius input label (key_str k) upper eps self
  = if decide (Z.of_nat (argmax pred) ≠ label) then
      (Ok s_zero, self, [ev_predict m input])
    else if decide (jacbndalg self ≠ Some "disable") then
      (Ok jac.1, self,
       ev_predict m input :: ev_binary_search upper (steps self) :: jac.2)
    else
      (Ok lin.1, self,
       ev_predict m input :: ev_binary_search eps (steps self) :: lin.2).
Proof.
  intros m pred jac lin. run_method. fold m pred.
  repeat case_decide; try done.
  - fold jac. by destruct jac.
  - fold lin. by destruct lin.
Qed.

(** [SpectralAdaptor.calc_radius] on a norm type of the table. *)
Lemma SpectralAdaptor_calc_radius_run self input label k upper eps :
  let m := rbm_model (self_model self) in
  let pred := keras_predict m input in
  let a := spectral_args self (argmax pred) input pred (norm_of k) in
  SpectralAdaptor_calc_radius input label (key_str k) upper eps self
  = if decide (Z.of_nat (argmax pred) ≠ label) then
      (Ok s_zero, self, [ev_predict m input])
    else
      (Ok (spectral_bound a).1, self,
       [ev_predict m input; ev_spectral_bound a]).
Proof.
  intros m pred a. run_method. fold m pred.
  case_decide; try done.
  fold a. by destruct (spectral_bound a).
Qed.

(** Method lookup by the class of [self]. *)
Lemma calc_radius_dispatch self input label norm_type upper eps :
  calc_radius input label norm_type upper eps self
  = if decide (cls self = SpectralAdaptor) then
      SpectralAdaptor_calc_radius input label norm_type upper eps self
    else RecurJacBase_calc_radius input label norm_type upper eps self.
Proof.
  unfold calc_radius. cbv [mbind method_bind get_self].
  by destruct (cls self); case_decide; try done;
    match goal with |- context [?f input label norm_type upper eps self] =>
      destruct (f input label norm_type upper eps self) as [[[?|?] ?] ?]
    end.
Qed.

Lemma verify_dispatch self input label norm_type radius :
  verify input label norm_type radius self
  = if decide (cls self = SpectralAdaptor) then
      SpectralAdaptor_verify input label norm_type radius self
    else RecurJacBase_verify input label norm_type radius self.
Proof.
  unfold verify. cbv [mbind method_bind get_self].
  by destruct (cls self); case_decide; try done;
    match goal with |- context [?f input label norm_type radius self] =>
      destruct (f input label norm_type radius self) as [[[?|?] ?] ?]
    end.
Qed.

(** A norm type outside the table: the lookup raises before anything is
    called. *)
Lemma unknown_norm_type_raises self input label norm_type radius upper eps :
  norm_table !! norm_type = None ->
  verify input label norm_type radius self = (Raise KeyError, self, []) /\
  calc_radius input label norm_type upper eps self
  = (Raise KeyError, self, []).
Proof.
  intros Hnone.
  assert (Hc : forall u e,
    calc_radius input label norm_type u e self = (Raise KeyError, self, [])).
  { intros u e. rewrite calc_radius_dispatch.
    case_decide; run_method; by rewrite Hnone. }
  split; [|apply Hc].
  rewrite verify_dispatch. case_decide.
  - unfold SpectralAdaptor_verify. cbv [mbind method_bind]. by rewrite Hc.
  - run_method. by rewrite Hnone.
Qed.

(** [SpectralAdaptor.verify] compares with what [calc_radius] found. *)
Lemma SpectralAdaptor_verify_run self input label k radius :
  cls self = SpectralAdaptor ->
  let m := rbm_model (self_model self) in
  let pred := keras_predict m input in
  let a := spectral_args self (argmax pred) input pred (norm_of k) in
  SpectralAdaptor_verify input label (key_str k) radius self
  = if decide (Z.of_nat (argmax pred) ≠ label) then
      (Ok (PyBool (s_leb radius s_zero)), self, [ev_predict m input])
    else
      (Ok (PyBool (s_leb radius (spectral_bound a).1)), self,
       [ev_predict m input; ev_spectral_bound a]).
Proof.
  intros Hcls m pred a. unfold SpectralAdaptor_verify.
  cbv [mbind method_bind]. rewrite calc_radius_dispatch, Hcls.
  case_decide; [|done].
  rewrite SpectralAdaptor_calc_radius_run. fold m pred a.
  by case_decide.
Qed.

(** No method assigns an attribute of [self], whatever the norm type. *)
Lemma methods_keep_self self input label norm_type radius upper eps :
  self_after (verify input label norm_type radius self) = self /\
  self_after (calc_radius input label norm_type upper eps self) = self.
Proof.
  assert (Hs : forall u e,
    self_after (SpectralAdaptor_calc_radius input label norm_type u e self)
    = self).
  { intros u e. run_method.
    destruct (norm_table !! norm_type); [|done].
    by case_decide. }
  assert (Hb : forall u e,
    self_after (RecurJacBase_calc_radius input label norm_type u e self)
    = self).
  { intros u e. run_method.
    destruct (norm_table !! norm_type); [|done].
    by repeat case_decide. }
  assert (Hc : forall u e,
    self_after (calc_radius input label norm_type u e self) = self).
  { intros u e. rewrite calc_radius_dispatch. by case_decide. }
  split; [|apply Hc].
  rewrite verify_dispatch. case_decide.
  - unfold SpectralAdaptor_verify. cbv [mbind method_bind].
    specialize (Hc s_half s_tiny).
    by destruct (calc_radius _ _ _ _ _ _) as [[[?|?] ?] ?].
  - run_method.
    destruct (norm_table !! norm_type); [|done].
    by repeat case_decide.
Qed.

(** What each constructor leaves in the attributes. *)
Lemma new_attributes c dataset (model : list (torch_layer R)) self :
  new c dataset model = Ok self ->
  cls self = c /\
  lipsteps self = 15 /\
  steps self = 15 /\
  jacbndalg self =
    match c with
    | FastLipAdaptor => Some "fastlip"
    | RecurJacAdaptor => Some "recurjac"
    | FastLinAdaptor => Some "disable"
    | _ => None
    end /\
  layerbndalg self =
    match c with
    | SpectralAdaptor => "spectral"
    | FastLinAdaptor => "fastlin"
    | _ => if decide (rbm_activation (self_model self) = "relu")
           then "crown-adaptive" else "crown-general"
    end.
Proof.
  intros Hnew.
  assert (Hbase : forall base,
    RecurJacBase_init c dataset model = Ok base ->
    cls base = c /\ lipsteps base = 15 /\ steps base = 15 /\
    jacbndalg base = None /\
    layerbndalg base = if decide (rbm_activation (self_model base) = "relu")
                       then "crown-adaptive" else "crown-general").
  { unfold RecurJacBase_init. intros base.
    destruct (RecurBaseModel_init dataset model) as [m|e]; simpl; [|done].
    destruct (get_weights_list m). by intros [= <-]. }
  destruct c; simpl in Hnew;
    [ apply Hbase in Hnew as (? & ? & ? & ? & ?); by split_and! | .. ];
    unfold FastLipAdaptor_init, RecurJacAdaptor_init, SpectralAdaptor_init,
      FastLinAdaptor_init in Hnew;
    destruct (RecurJacBase_init _ dataset model) as [base|e] eqn:Hb;
    simpl in Hnew; try done; injection Hnew as <-;
    destruct (Hbase base eq_refl) as (? & ? & ? & ? & ?); by split_and!.
Qed.
End MethodRuns.

(** The constructors build the sample objects. *)
Lemma sample_objects :
  new FastLipAdaptor "toy" mlp = Ok fastlip /\
  new RecurJacAdaptor "toy" mlp = Ok recurjac /\
  new SpectralAdaptor "toy" mlp = Ok spectral /\
  new FastLinAdaptor "toy" mlp = Ok fastlin.
Proof. split_and!; vm_compute; reflexivity. Qed.

(** ** The adaptors *)

Section AdaptorClaims.
Context {R : Type} `{Scalar R} `{Toolkit R}.
Implicit Types (self : adaptor R) (input : list R) (label : Z) (k : norm_key).

(** C3. On a correctly predicted input the verdict of [verify] is a
    comparison of the queried radius with the one value an external
    bounding function returned: for FastLipAdaptor and RecurJacAdaptor (and
    the base class) it is True exactly when [compute_bounds_integral]
    returns a value equal to the radius, for FastLinAdaptor exactly when
    the gap returned by [compute_bounds] is at least zero, for
    SpectralAdaptor exactly when the radius is at most the bound returned
    by [spectral_bound].  The adaptor makes that one bounding call after
    the prediction and nothing else. *)
Theorem verify_verdict c dataset (model : list (torch_layer R)) self
    input label k radius :
  new c dataset model = Ok self ->
  let m := rbm_model (self_model self) in
  let pred := keras_predict m input in
  Z.of_nat (argmax pred) = label ->
  verify input label (key_str k) radius self
  = match c with
    | SpectralAdaptor =>
        let a := spectral_args self (argmax pred) input pred (norm_of k) in
        (Ok (PyBool (s_leb radius (spectral_bound a).1)), self,
         [ev_predict m input; ev_spectral_bound a])
    | FastLinAdaptor =>
        let b := bounds_args self (argmax pred) input pred (norm_of k)
                   radius in
        (Ok (PyBool (s_leb s_zero (compute_bounds b).1.1.1)), self,
         [ev_predict m input; ev_compute_bounds b])
    | _ =>
        let a := bounds_integral_args self (argmax pred) input pred
                   (norm_of k) radius in
        (Ok (PyBool (s_eqb (compute_bounds_integral a) radius)), self,
         [ev_predict m input; ev_compute_bounds_integral a])
    end.
Proof.
  intros Hnew m pred Hpred.
  apply new_attributes in Hnew as (Hcls & _ & _ & Hjac & _).
  rewrite verify_dispatch, Hcls.
  destruct c; case_decide; try done;
    try (rewrite SpectralAdaptor_verify_run by done; fold m pred;
         by case_decide);
    rewrite RecurJacBase_verify_run; fold m pred; rewrite Hjac;
    by repeat case_decide.
Qed.

(** C4, as the code has it.  On a correctly predicted input
    [calc_radius] of FastLipAdaptor and RecurJacAdaptor (and the base
    class) returns what [binary_search] returns for the predicate
    "[compute_bounds_integral] gives back the radius it was asked about",
    started at [upper] with 15 steps; of FastLinAdaptor what it returns for
    the predicate "the gap of [compute_bounds] is at least zero", started
    at [eps] with 15 steps, whatever [upper] is; SpectralAdaptor runs no
    search and returns the bound of [spectral_bound].  Nothing compares
    the result with [upper]. *)
Theorem calc_radius_result c dataset (model : list (torch_layer R)) self
    input label k upper eps :
  new c dataset model = Ok self ->
  let m := rbm_model (self_model self) in
  let pred := keras_predict m input in
  Z.of_nat (argmax pred) = label ->
  calc_radius input label (key_str k) upper eps self
  = match c with
    | SpectralAdaptor =>
        let a := spectral_args self (argmax pred) input pred (norm_of k) in
        (Ok (spectral_bound a).1, self,
         [ev_predict m input; ev_spectral_bound a])
    | FastLinAdaptor =>
        let found :=
          binary_search
            (linear_cond self (argmax pred) input pred (norm_of k)) eps 15 in
        (Ok found.1, self,
         ev_predict m input :: ev_binary_search eps 15 :: found.2)
    | _ =>
        let found :=
          binary_search
            (jacobian_cond self (argmax pred) input pred (norm_of k))
            upper 15 in
        (Ok found.1, self,
         ev_predict m input :: ev_binary_search upper 15 :: found.2)
    end.
Proof.
  intros Hnew m pred Hpred.
  apply new_attributes in Hnew as (Hcls & _ & Hsteps & Hjac & _).
  rewrite calc_radius_dispatch, Hcls.
  destruct c; case_decide; try done;
    try (rewrite SpectralAdaptor_calc_radius_run; fold m pred;
         by case_decide);
    rewrite RecurJacBase_calc_radius_run; fold m pred;
    rewrite Hjac, Hsteps; by repeat case_decide.
Qed.

(** C5. Every call of [verify] and of [calc_radius] first has the
    converted model predict on the input.  When the predicted label is not
    the given one nothing follows.  When it is, [verify] makes exactly one
    bounding call; [calc_radius] either makes exactly one bounding call
    (the spectral bound) or ends with the binary search: the search is the
    last thing it does, it returns the search's result, and the bounding
    functions are reached only through the predicate handed to the
    search, each evaluation of which is one bounding call. *)
Theorem call_sequence self input label k radius upper eps :
  let m := rbm_model (self_model self) in
  let pred := keras_predict m input in
  exists rest_v rest_c,
    calls (verify input label (key_str k) radius self)
    = ev_predict m input :: rest_v /\
    calls (calc_radius input label (key_str k) upper eps self)
    = ev_predict m input :: rest_c /\
    (Z.of_nat (argmax pred) ≠ label -> rest_v = [] /\ rest_c = []) /\
    (Z.of_nat (argmax pred) = label ->
     (exists e, rest_v = [e] /\ is_bound_call e) /\
     ((exists e, rest_c = [e] /\ is_bound_call e) \/
      (exists cond start,
         let found := binary_search cond start (steps self) in
         rest_c = ev_binary_search start (steps self) :: found.2 /\
         returned (calc_radius input label (key_str k) upper eps self)
         = Ok found.1 /\
         forall r, exists e, (cond r).2 = [e] /\ is_bound_call e))).
Proof.
  intros m pred.
  rewrite verify_dispatch, calc_radius_dispatch.
  destruct (decide (cls self = SpectralAdaptor)) as [Hcls|Hcls].
  - rewrite SpectralAdaptor_verify_run, SpectralAdaptor_calc_radius_run
      by done.
    fold m pred. case_decide as Hl.
    + exists [], []. by split_and!.
    + eexists [_], [_]. split_and!; try done. intros _.
      split; [by eexists|]. left. by eexists.
  - rewrite RecurJacBase_verify_run, RecurJacBase_calc_radius_run.
    fold m pred. case_decide as Hl.
    + exists [], []. by split_and!.
    + case_decide as Hj.
      * eexists [_], (_ :: _). split_and!; try done. intros _.
        split; [by eexists|]. right.
        exists (jacobian_cond self (argmax pred) input pred (norm_of k)), upper.
        split_and!; try done. intros r. by eexists.
      * eexists [_], (_ :: _). split_and!; try done. intros _.
        split; [by eexists|]. right.
        exists (linear_cond self (argmax pred) input pred (norm_of k)), eps.
        split_and!; try done. intros r.
        unfold linear_cond, call_bounds.
        destruct (compute_bounds _) as [[[gap ?] ?] ?]. by eexists.
Qed.
(** C6. The constructors fix the bounding-algorithm parameters:
    [lipsteps] and [steps] are 15; [jacbndalg] is 'fastlip' for
    FastLipAdaptor, 'recurjac' for RecurJacAdaptor and 'disable' for
    FastLinAdaptor; [layerbndalg] is 'fastlin' for FastLinAdaptor,
    'spectral' for SpectralAdaptor and otherwise what the base class chose,
    'crown-adaptive' for a relu model and 'crown-general' for any other.
    No call of [verify] or [calc_radius] changes an attribute. *)
Theorem parameters_fixed c dataset (model : list (torch_layer R)) self :
  new c dataset model = Ok self ->
  lipsteps self = 15 /\
  steps self = 15 /\
  jacbndalg self =
    match c with
    | FastLipAdaptor => Some "fastlip"
    | RecurJacAdaptor => Some "recurjac"
    | FastLinAdaptor => Some "disable"
    | _ => None
    end /\
  layerbndalg self =
    match c with
    | SpectralAdaptor => "spectral"
    | FastLinAdaptor => "fastlin"
    | _ => if decide (rbm_activation (self_model self) = "relu")
           then "crown-adaptive" else "crown-general"
    end /\
  forall input label norm_type radius upper eps,
    self_after (verify input label norm_type radius self) = self /\
    self_after (calc_radius input label norm_type upper eps self) = self.
Proof.
  intros Hnew.
  apply new_attributes in Hnew as (_ & Hlip & Hsteps & Hjac & Hlayer).
  split_and!; try done.
  intros. apply methods_keep_self.
Qed.

(** C7, as the code has it.  When the predicted label differs from the
    given label, the only external call is the prediction: no bounding
    function runs and no binary search.  [calc_radius] returns 0.0 for
    every adaptor; [verify] returns 0.0 for every adaptor but
    SpectralAdaptor, whose [verify] returns the boolean
    [radius <= 0.0]. *)
Theorem mispredicted_result self input label k radius upper eps :
  let m := rbm_model (self_model self) in
  Z.of_nat (argmax (keras_predict m input)) ≠ label ->
  calc_radius input label (key_str k) upper eps self
  = (Ok s_zero, self, [ev_predict m input]) /\
  verify input label (key_str k) radius self
  = (Ok (if decide (cls self = SpectralAdaptor)
         then PyBool (s_leb radius s_zero) else PyFloat s_zero),
     self, [ev_predict m input]).
Proof.
  intros m Hl.
  rewrite verify_dispatch, calc_radius_dispatch.
  case_decide as Hcls.
  - rewrite SpectralAdaptor_verify_run, SpectralAdaptor_calc_radius_run
      by done.
    fold m. by case_decide.
  - rewrite RecurJacBase_verify_run, RecurJacBase_calc_radius_run.
    fold m. by case_decide.
Qed.

(** C9. For a SpectralAdaptor, [verify] on a radius is True exactly when
    the radius is at most what [calc_radius] (with its default [upper] and
    [eps]) returns on the same input, label and norm type. *)
Theorem spectral_verify_calc_radius self input label k radius :
  cls self = SpectralAdaptor ->
  exists found,
    returned (calc_radius input label (key_str k) s_half s_tiny self)
    = Ok found /\
    returned (verify input label (key_str k) radius self)
    = Ok (PyBool (s_leb radius found)) /\
    (returned (verify input label (key_str k) radius self) = Ok (PyBool true)
     <-> s_leb radius found = true).
Proof.
  intros Hcls.
  rewrite verify_dispatch, calc_radius_dispatch, Hcls.
  case_decide; [|done].
  rewrite SpectralAdaptor_verify_run, SpectralAdaptor_calc_radius_run
    by done.
  case_decide; eexists; (split_and!; [done | done |]);
    unfold returned; simpl; split; congruence.
Qed.
End AdaptorClaims.

(** ** The claims on the sample network *)

(** C2. [RecurJacBase.verify] is annotated [-> bool], yet on an input the
    network labels 0 and the caller labels 1 it hands back the float 0.0,
    for each of the three adaptors that inherit it. *)
Theorem verify_returns_float :
  Z.of_nat (argmax (keras_predict mlp_keras x0)) = 0%Z /\
  Forall (fun self =>
            returned (verify x0 1 "inf" (1 # 10)%Q self)
            = Ok (PyFloat 0%Q))
         [fastlip; recurjac; fastlin].
Proof. split; [|repeat constructor]; vm_compute; reflexivity. Qed.

Lemma verify_verdict_witness :
  new FastLipAdaptor "toy" mlp = Ok fastlip /\
  Z.of_nat (argmax (keras_predict mlp_keras x0)) = 0%Z /\
  returned (verify x0 0 (key_str Linf) (1 # 10)%Q fastlip)
  = Ok (PyBool true).
Proof.
  assert (Hnew : new FastLipAdaptor "toy" mlp = Ok fastlip)
    by (vm_compute; reflexivity).
  assert (Hpred : Z.of_nat (argmax (keras_predict mlp_keras x0)) = 0%Z)
    by (vm_compute; reflexivity).
  split; [exact Hnew|]. split; [exact Hpred|].
  rewrite (verify_verdict FastLipAdaptor "toy" mlp fastlip x0 0 Linf
             (1 # 10)%Q Hnew Hpred).
  vm_compute. reflexivity.
Defined.

(** With a spectral bound of 1 the SpectralAdaptor returns a radius above
    [upper] = 0.5, and it runs no binary search. *)
Lemma calc_radius_exceeds_upper :
  new SpectralAdaptor "toy" mlp = Ok spectral /\
  Z.of_nat (argmax (keras_predict mlp_keras x0)) = 0%Z /\
  returned (calc_radius x0 0 "inf" (1 # 2)%Q (1 # 10000)%Q spectral)
  = Ok 1%Q /\
  s_leb 1%Q (1 # 2)%Q = false /\
  existsb is_binary_search
    (calls (calc_radius x0 0 "inf" (1 # 2)%Q (1 # 10000)%Q spectral))
  = false.
Proof. split_and!; vm_compute; reflexivity. Qed.

Lemma calc_radius_result_witness :
  new FastLipAdaptor "toy" mlp = Ok fastlip /\
  Z.of_nat (argmax (keras_predict mlp_keras x0)) = 0%Z /\
  returned (calc_radius x0 0 (key_str Linf) (1 # 2)%Q (1 # 10000)%Q fastlip)
  = Ok (binary_search
          (jacobian_cond fastlip 0 x0 (keras_predict mlp_keras x0) norm_inf)
          (1 # 2)%Q 15).1.
Proof.
  assert (Hnew : new FastLipAdaptor "toy" mlp = Ok fastlip)
    by (vm_compute; reflexivity).
  assert (Hpred : Z.of_nat (argmax (keras_predict mlp_keras x0)) = 0%Z)
    by (vm_compute; reflexivity).
  split; [exact Hnew|]. split; [exact Hpred|].
  rewrite (calc_radius_result FastLipAdaptor "toy" mlp fastlip x0 0 Linf
             (1 # 2)%Q (1 # 10000)%Q Hnew Hpred).
  reflexivity.
Defined.

Lemma call_sequence_witness :
  Z.of_nat (argmax (keras_predict mlp_keras x0)) = 0%Z /\
  (exists e,
     calls (verify x0 0 (key_str L2) (1 # 10)%Q fastlin)
     = [ev_predict mlp_keras x0; e] /\ is_bound_call e) /\
  calls (verify x0 1 (key_str L2) (1 # 10)%Q fastlin)
  = [ev_predict mlp_keras x0].
Proof.
  assert (Hpred : Z.of_nat (argmax (keras_predict mlp_keras x0)) = 0%Z)
    by (vm_compute; reflexivity).
  split; [exact Hpred|]. split.
  - destruct (call_sequence fastlin x0 0 L2 (1 # 10)%Q (1 # 2)%Q
                (1 # 10000)%Q)
      as (rest_v & rest_c & Hv & _ & _ & Hok).
    destruct (Hok Hpred) as [(e & -> & He) _]. by exists e.
  - destruct (call_sequence fastlin x0 1 L2 (1 # 10)%Q (1 # 2)%Q
                (1 # 10000)%Q)
      as (rest_v & rest_c & Hv & _ & Hmis & _).
    destruct Hmis as [-> _]; [|exact Hv].
    change (Z.of_nat (argmax (keras_predict mlp_keras x0)) ≠ 1%Z).
    rewrite Hpred. lia.
Defined.

Lemma parameters_fixed_witness :
  new FastLinAdaptor "toy" mlp = Ok fastlin /\
  jacbndalg fastlin = Some "disable" /\
  layerbndalg fastlin = "fastlin" /\
  self_after (calc_radius x0 0 "inf" (1 # 2)%Q (1 # 10000)%Q fastlin)
  = fastlin.
Proof.
  assert (Hnew : new FastLinAdaptor "toy" mlp = Ok fastlin)
    by (vm_compute; reflexivity).
  destruct (parameters_fixed FastLinAdaptor "toy" mlp fastlin Hnew)
    as (_ & _ & Hjac & Hlayer & Hkeep).
  split_and!; [exact Hnew | exact Hjac | exact Hlayer |].
  apply Hkeep. exact 0%Q.
Defined.

(** A mispredicted input on which [SpectralAdaptor.verify] answers True. *)
Lemma spectral_verify_mispredicted :
  new SpectralAdaptor "toy" mlp = Ok spectral /\
  Z.of_nat (argmax (keras_predict mlp_keras x0)) ≠ 1%Z /\
  returned (verify x0 1 "inf" 0%Q spectral) = Ok (PyBool true) /\
  returned (verify x0 1 "inf" 0%Q spectral) ≠ Ok (PyFloat 0%Q).
Proof.
  split_and!; try (vm_compute; reflexivity); vm_compute; discriminate.
Qed.

Lemma mispredicted_result_witness :
  Z.of_nat (argmax (keras_predict mlp_keras x0)) ≠ 1%Z /\
  calc_radius x0 1 (key_str L1) (1 # 2)%Q (1 # 10000)%Q recurjac
  = (Ok 0%Q, recurjac, [ev_predict mlp_keras x0]) /\
  verify x0 1 (key_str L1) (1 # 10)%Q recurjac
  = (Ok (PyFloat 0%Q), recurjac, [ev_predict mlp_keras x0]).
Proof.
  assert (Hpred : Z.of_nat (argmax (keras_predict mlp_keras x0)) ≠ 1%Z)
    by (vm_compute; discriminate).
  split; [exact Hpred|].
  exact (mispredicted_result recurjac x0 1 L1 (1 # 10)%Q (1 # 2)%Q
           (1 # 10000)%Q Hpred).
Defined.

Lemma spectral_verify_calc_radius_witness :
  cls spectral = SpectralAdaptor /\
  exists found,
    returned (calc_radius x0 0 (key_str Linf) s_half s_tiny spectral)
    = Ok found /\
    returned (verify x0 0 (key_str Linf) (3 # 2)%Q spectral)
    = Ok (PyBool (s_leb (3 # 2)%Q found)) /\
    (returned (verify x0 0 (key_str Linf) (3 # 2)%Q spectral)
     = Ok (PyBool true)
     <-> s_leb (3 # 2)%Q found = true).
Proof.
  split; [reflexivity|].
  exact (spectral_verify_calc_radius spectral x0 0 Linf (3 # 2)%Q eq_refl).
Defined.

(** * Further properties of the conversion and of the constructors *)

#[local] Set Warnings "-clear-no-such-hyp".

Section ConversionFacts.
Context {R : Type} `{Scalar R}.
Implicit Types (st : t2k_state R) (model : list (torch_layer R)).

(** What the loop leaves in [activation_param]: the slope of the last
    LeakyReLU layer it met. *)
Lemma t2k_loop_param shape model : forall st st',
  for_each (t2k_body shape) model st = Ok st' ->
  activation_param st'
  = match last (omap leaky_slope model) with
    | Some a => Some a
    | None => activation_param st
    end.
Proof.
  induction model as [|l model IH]; intros st st' Hloop; simpl in Hloop.
  - by injection Hloop as <-.
  - destruct (t2k_body shape st l) as [st1|e] eqn:Hb; simpl in Hloop;
      [|done].
    rewrite (IH _ _ Hloop).
    destruct l as [|i o w b| | |a|p|c].
    2:{ rewrite t2k_body_linear in Hb.
        destruct (model_output (ans st)); [|done].
        case_decide; [|done]. by injection Hb as <-. }
    all: simpl in Hb; inversion Hb; subst; clear Hb; simpl; try done.
    rewrite last_cons. by destruct (last _).
Qed.

Lemma leaky_slope_kind model :
  "leaky" ∈ activation_kinds model <-> omap leaky_slope model <> [].
Proof.
  unfold activation_kinds. rewrite list_elem_of_omap. split.
  - intros (l & Hin & Hk). destruct l; simpl in Hk; try done.
    intros Hnil.
    assert (negative_slope ∈ omap leaky_slope model) as Hm
      by (apply list_elem_of_omap; by eexists (nn_LeakyReLU _)).
    rewrite Hnil in Hm. by apply elem_of_nil in Hm.
  - intros Hne. destruct (omap leaky_slope model) as [|a rest] eqn:Ho;
      [done|].
    assert (a ∈ omap leaky_slope model) as Hm by (rewrite Ho; by left).
    apply list_elem_of_omap in Hm as (l & Hin & Hl).
    exists l. split; [done|]. by destruct l.
Qed.

(** X3. The [activation_param] that [torch2keras] returns is the
    [negative_slope] of the last LeakyReLU layer of the model; it is [None]
    exactly when the returned activation is not 'leaky'. *)
Theorem torch2keras_activation_param get_shape dataset model ans act param :
  torch2keras get_shape dataset model = Ok (ans, act, param) ->
  param = last (omap leaky_slope model) /\
  (param = None <-> act <> "leaky").
Proof.
  intros Hok.
  apply torch2keras_ok_inv in Hok as (st & Hst & -> & -> & Hin & Hall).
  rewrite (t2k_loop_param _ _ _ _ Hst). simpl.
  assert (Hp : match last (omap leaky_slope model) with
               | Some a0 => Some a0
               | None => None
               end = last (omap leaky_slope model)) by by destruct (last _).
  rewrite Hp. split; [done|].
  rewrite last_None. split.
  - intros Hnil ->. by apply leaky_slope_kind in Hin.
  - intros Hne. destruct (omap leaky_slope model) as [|s rest] eqn:Ho;
      [done|].
    destruct Hne. symmetry. apply Hall, leaky_slope_kind. by rewrite Ho.
Qed.
(** The Dense layers of the converted model are the images of the Linear
    layers, in order. *)
Lemma filter_dense_spec_layers shape model : forall done,
  List.filter is_Dense (spec_layers shape done model)
  = omap linear_image model.
Proof.
  induction model as [|l model IH]; intros d; [done|].
  simpl. rewrite List.filter_app, IH. by destruct l.
Qed.

Lemma name_prefix_inj (pre1 pre2 : string) (p q : nat) :
  pre1 = "relu_" \/ pre1 = "tanh_" \/ pre1 = "leaky_" ->
  pre2 = "relu_" \/ pre2 = "tanh_" \/ pre2 = "leaky_" ->
  pre1 +:+ pretty p = pre2 +:+ pretty q -> p = q.
Proof.
  intros [->|[->| ->]] [->|[->| ->]] Heq;
    unfold String.app in Heq; simpl in Heq;
    try discriminate; apply (inj pretty); congruence.
Qed.

Lemma spec_layers_names shape model : forall done s,
  s ∈ omap layer_name (spec_layers shape done model) ->
  exists pre p,
    (pre = "relu_" \/ pre = "tanh_" \/ pre = "leaky_") /\
    done < p /\ s = pre +:+ pretty p.
Proof.
  induction model as [|l model IH]; intros d s Hin; simpl in Hin.
  - by apply elem_of_nil in Hin.
  - rewrite omap_app, elem_of_app in Hin. destruct Hin as [Hin|Hin].
    + destruct l; simpl in Hin;
        try (by apply elem_of_nil in Hin);
        apply list_elem_of_singleton in Hin as ->;
        eexists _, (S d); (split_and!; [|lia|reflexivity]); tauto.
    + apply IH in Hin as (pre & p & Hpre & Hlt & ->).
      exists pre, p. split_and!; [done | lia | done].
Qed.

Lemma spec_layers_names_NoDup shape model : forall done,
  NoDup (omap layer_name (spec_layers shape done model)).
Proof.
  induction model as [|l model IH]; intros d; simpl; [constructor|].
  rewrite omap_app.
  assert (Hfresh : forall pre,
    pre = "relu_" \/ pre = "tanh_" \/ pre = "leaky_" ->
    pre +:+ pretty (S d)
      ∉ omap layer_name (spec_layers shape (S d) model)).
  { intros pre Hpre Hin.
    apply spec_layers_names in Hin as (pre' & p & Hpre' & Hlt & Heq).
    apply name_prefix_inj in Heq; [lia | done | done]. }
  destruct l; simpl; try apply IH;
    (apply NoDup_cons; split; [apply Hfresh; tauto | apply IH]).
Qed.

(** X4. The names [torch2keras] gives to the activation layers of the
    model it returns ([relu_n], [tanh_n], [leaky_n], with [n] the position
    of the torch layer) are pairwise different. *)
Theorem torch2keras_names_distinct get_shape dataset model ans act param :
  torch2keras get_shape dataset model = Ok (ans, act, param) ->
  NoDup (omap layer_name ans).
Proof.
  intros Hok.
  apply torch2keras_ok_inv in Hok as (st & Hst & -> & _).
  apply t2k_loop_ok in Hst as (-> & _ & _). simpl.
  apply spec_layers_names_NoDup.
Qed.

Lemma tensor_t_wf (w : tensor2 R) :
  length (t_data w) = t_rows w -> tensor2_wf (tensor_t w).
Proof.
  intros Hrows. split; simpl.
  - by rewrite length_map, length_seq.
  - apply Forall_forall. intros row Hin.
    apply list_elem_of_In, in_map_iff in Hin as (c & <- & _).
    unfold column. by rewrite length_map.
Qed.

Lemma spec_layers_dense_ready shape model :
  Forall layer_wf model ->
  forall done, Forall dense_ready (spec_layers shape done model).
Proof.
  induction 1 as [|l model Hl Hwf IH]; intros d; simpl; [constructor|].
  apply Forall_app. split; [|apply IH].
  destruct l as [|i o w b| | |slope|p|c]; simpl;
    try (by repeat constructor).
  destruct Hl as ((Hrows & _) & Hunits & _).
  constructor; [|constructor].
  split; [by apply tensor_t_wf | done].
Qed.

(** X5. In the model [torch2keras] returns for a torch model whose Linear
    weights are out-by-in, every Dense layer has had its weights set, and
    the kernel is a rectangular matrix with one column per unit. *)
Theorem torch2keras_dense_ready get_shape dataset model ans act param :
  Forall layer_wf model ->
  torch2keras get_shape dataset model = Ok (ans, act, param) ->
  Forall dense_ready ans.
Proof.
  intros Hwf Hok.
  apply torch2keras_ok_inv in Hok as (st & Hst & -> & _).
  apply t2k_loop_ok in Hst as (-> & _ & _). simpl.
  by apply spec_layers_dense_ready.
Qed.

Lemma without_dropout_views model :
  activation_kinds (without_dropout model) = activation_kinds model /\
  omap leaky_slope (without_dropout model) = omap leaky_slope model /\
  (Forall supported model -> Forall supported (without_dropout model)).
Proof.
  induction model as [|l model (IHk & IHs & IHf)]; [done|].
  split_and!.
  - destruct l; simpl; unfold activation_kinds in *; simpl;
      by rewrite ?IHk.
  - destruct l; simpl; first [exact IHs | f_equal; exact IHs].
  - intros Hs. inversion Hs; subst.
    destruct l; simpl; try constructor; auto.
Qed.

Lemma layer_output_erase (l : keras_layer R) d :
  layer_output (erase_name l) d = layer_output l d.
Proof. by destruct l. Qed.

(** Names play no part in what keras infers about the model. *)
Lemma model_output_erase (a : Sequential R) :
  model_output (map erase_name a) = model_output a.
Proof.
  destruct a as [|l rest]; [done|]. destruct l; try done.
  simpl. f_equal. generalize (fold_right Nat.mul 1 input_shape).
  induction rest as [|l rest IH]; intros d; simpl; [done|].
  rewrite layer_output_erase. apply IH.
Qed.

Lemma model_output_same (a b : Sequential R) :
  map erase_name a = map erase_name b -> model_output a = model_output b.
Proof.
  intros Hab. by rewrite <- (model_output_erase a), Hab, model_output_erase.
Qed.

(** One iteration from two states that agree up to names (and the
    counter): a Dropout layer keeps them in agreement, any other layer
    goes through from the second state too. *)
Lemma t2k_body_up_to_names shape st1 st2 l st1' :
  map erase_name (ans st1) = map erase_name (ans st2) ->
  activation st1 = activation st2 ->
  activation_param st1 = activation_param st2 ->
  t2k_body shape st1 l = Ok st1' ->
  exists st2',
    (if is_Dropout l then st2' = st2 else t2k_body shape st2 l = Ok st2') /\
    map erase_name (ans st1') = map erase_name (ans st2') /\
    activation st1' = activation st2' /\
    activation_param st1' = activation_param st2'.
Proof.
  intros Ha Hk Hp Hb.
  destruct l as [|i o w b| | |a|p|c]; cbn [is_Dropout].
  2:{ rewrite t2k_body_linear in Hb |- *.
      rewrite <- (model_output_same _ _ Ha).
      destruct (model_output (ans st1)); [|done]. case_decide; [|done].
      injection Hb as <-. eexists. split; [reflexivity|]. simpl.
      rewrite !map_app, Ha. auto. }
  all: simpl in Hb; inversion Hb; subst; clear Hb;
    eexists; (split; [reflexivity|]); simpl; unfold seq_add;
    rewrite ?map_app, ?Ha, ?Hk, ?Hp; auto.
Qed.

Lemma t2k_loop_without_dropout shape model : forall st1 st2 st1',
  map erase_name (ans st1) = map erase_name (ans st2) ->
  activation st1 = activation st2 ->
  activation_param st1 = activation_param st2 ->
  for_each (t2k_body shape) model st1 = Ok st1' ->
  exists st2',
    for_each (t2k_body shape) (without_dropout model) st2 = Ok st2' /\
    map erase_name (ans st1') = map erase_name (ans st2') /\
    activation_param st1' = activation_param st2'.
Proof.
  induction model as [|l model IH]; intros st1 st2 st1' Ha Hk Hp Hloop;
    simpl in Hloop.
  - injection Hloop as <-. by exists st2.
  - destruct (t2k_body shape st1 l) as [st1m|e] eqn:Hb; simpl in Hloop;
      [|done].
    destruct (t2k_body_up_to_names _ _ _ _ _ Ha Hk Hp Hb)
      as (st2m & Hstep & Ha' & Hk' & Hp').
    destruct (IH _ _ _ Ha' Hk' Hp' Hloop) as (st2' & Hrest & Hres).
    exists st2'. split; [|done].
    unfold without_dropout. simpl.
    destruct (is_Dropout l); simpl.
    + by subst.
    + rewrite Hstep. simpl. exact Hrest.
Qed.

(** X6. Dropout layers only shift the numbers in the layer names: when
    [torch2keras] converts a model, it also converts the model with the
    Dropout layers taken out, with the same activation, the same
    [activation_param] and, names aside, the same keras layers. *)
Theorem torch2keras_without_dropout get_shape dataset model ans act param :
  torch2keras get_shape dataset model = Ok (ans, act, param) ->
  exists ans',
    torch2keras get_shape dataset (without_dropout model)
    = Ok (ans', act, param) /\
    map erase_name ans' = map erase_name ans.
Proof.
  intros Hok.
  destruct (without_dropout_views model) as (Hk & _ & _).
  apply torch2keras_ok_inv in Hok as (st & Hst & -> & -> & Hin & Hall).
  destruct (t2k_loop_without_dropout _ _ (T2K [] 0 [] None)
              (T2K [] 0 [] None) st eq_refl eq_refl eq_refl Hst)
    as (st' & Hst' & Ha & Hp).
  destruct (torch2keras_after_loop get_shape dataset _ _ Hst')
    as [(Hno & _)|(_ & a' & Hin' & _ & Hr')].
  - destruct Hno. rewrite Hk. by exists act.
  - rewrite Hk in Hin'. rewrite (Hall a' Hin') in Hr'.
    exists (ans st'). by rewrite Hr', Hp.
Qed.
End ConversionFacts.

Section ConstructorFacts.
Context {R : Type} `{Scalar R} `{Toolkit R}.
Implicit Types (model : list (torch_layer R)) (self : adaptor R).

Lemma last_removelast {A} (U : list A) W :
  last U = Some W -> removelast U ++ [W] = U.
Proof.
  destruct U as [|x U _] using rev_ind; [done|].
  rewrite last_snoc, removelast_last. by intros [= ->].
Qed.

Lemma linear_images_nil model :
  omap linear_image model = [] <->
  Forall (fun l => is_Linear l = false) model.
Proof.
  induction model as [|l model IH]; [by split; [constructor|]|].
  rewrite Forall_cons, <- IH. destruct l; simpl; naive_solver.
Qed.

(** How [RecurBaseModel.__init__] ends, given how the conversion ended. *)
Lemma RecurBaseModel_init_raise dataset model e :
  torch2keras get_input_shape dataset model = Raise e ->
  RecurBaseModel_init dataset model = Raise e.
Proof. unfold RecurBaseModel_init. by intros ->. Qed.

Lemma RecurBaseModel_init_ok dataset model ans act param :
  torch2keras get_input_shape dataset model = Ok (ans, act, param) ->
  List.filter is_Dense ans = omap linear_image model /\
  match last (omap linear_image model) with
  | None => RecurBaseModel_init dataset model = Raise IndexError
  | Some W =>
      RecurBaseModel_init dataset model
      = Ok {| rbm_model := ans;
              rbm_activation := act;
              rbm_activation_param := param;
              rbm_U := removelast (omap linear_image model);
              rbm_W := W;
              rbm_layer_outputs := omap linear_image model |}
  end.
Proof.
  intros Hok.
  assert (Hf : List.filter is_Dense ans = omap linear_image model).
  { pose proof (torch2keras_ok_inv _ _ _ _ _ _ Hok) as (st & Hst & -> & _).
    apply t2k_loop_ok in Hst as (-> & _ & _). simpl.
    apply filter_dense_spec_layers. }
  split; [done|].
  unfold RecurBaseModel_init. rewrite Hok. simpl. rewrite Hf.
  by destruct (last _).
Qed.

(** The subclass constructors succeed and fail with the base one. *)
Lemma new_from_model c dataset model :
  match RecurBaseModel_init dataset model with
  | Raise e => new c dataset model = Raise e
  | Ok m =>
      exists self, new c dataset model = Ok self /\
                   self_model self = m /\
                   (weights self, biases self) = get_weights_list m
  end.
Proof.
  destruct (RecurBaseModel_init dataset model) as [m|e] eqn:Hm.
  - destruct c; simpl;
      unfold FastLipAdaptor_init, RecurJacAdaptor_init, SpectralAdaptor_init,
        FastLinAdaptor_init, RecurJacBase_init;
      rewrite Hm; simpl; destruct (get_weights_list m) as [ws bs]; simpl;
      by eexists.
  - destruct c; simpl;
      unfold FastLipAdaptor_init, RecurJacAdaptor_init, SpectralAdaptor_init,
        FastLinAdaptor_init, RecurJacBase_init;
      by rewrite Hm.
Qed.

Lemma new_ok_inv c dataset model self :
  new c dataset model = Ok self ->
  exists ans act param,
    torch2keras get_input_shape dataset model = Ok (ans, act, param) /\
    rbm_model (self_model self) = ans /\
    rbm_activation (self_model self) = act /\
    rbm_activation_param (self_model self) = param /\
    rbm_U (self_model self) ++ [rbm_W (self_model self)]
    = omap linear_image model /\
    rbm_layer_outputs (self_model self) = omap linear_image model /\
    (weights self, biases self) = get_weights_list (self_model self).
Proof.
  intros Hnew. pose proof (new_from_model c dataset model) as Hm.
  destruct (RecurBaseModel_init dataset model) as [m|e] eqn:Hinit;
    [|congruence].
  destruct Hm as (self' & Hnew' & Hsm & Hw).
  assert (self' = self) as -> by congruence. rewrite Hsm.
  destruct (torch2keras get_input_shape dataset model)
    as [[[ans act] param]|e] eqn:Ht;
    [|by rewrite (RecurBaseModel_init_raise _ _ _ Ht) in Hinit].
  destruct (RecurBaseModel_init_ok _ _ _ _ _ Ht) as (_ & Hcase).
  destruct (last (omap linear_image model)) as [W|] eqn:Hlast;
    [|congruence].
  rewrite Hcase in Hinit. injection Hinit as <-. simpl.
  exists ans, act, param. split_and!; try done.
  by apply last_removelast.
Qed.

(** X1. In an adaptor built by any of the constructors, [U] followed by
    [W] is the list of Dense layers made from the Linear layers of the
    torch model, in their order, [W] being the image of the last Linear
    layer; [layer_outputs] holds one entry for each of them. *)
Theorem constructor_dense_layers c dataset model self :
  new c dataset model = Ok self ->
  rbm_U (self_model self) ++ [rbm_W (self_model self)]
  = omap linear_image model /\
  last (omap linear_image model) = Some (rbm_W (self_model self)) /\
  rbm_layer_outputs (self_model self) = omap linear_image model.
Proof.
  intros Hnew.
  apply new_ok_inv in Hnew
    as (ans & act & param & _ & _ & _ & _ & HU & Hout & _).
  split_and!; try done. by rewrite <- HU, last_snoc.
Qed.

(** X2. A constructor fails with the conversion: whatever exception
    [torch2keras] raises, the constructor raises it too; and when
    [torch2keras] returns for a model without any Linear layer, the
    constructor raises IndexError, since [U] is empty where it takes
    [U[-1]]. *)
Theorem constructor_failures c dataset model :
  (forall e,
     torch2keras get_input_shape dataset model = Raise e ->
     new c dataset model = Raise e) /\
  (forall ans act param,
     torch2keras get_input_shape dataset model = Ok (ans, act, param) ->
     Forall (fun l => is_Linear l = false) model ->
     new c dataset model = Raise IndexError).
Proof.
  pose proof (new_from_model c dataset model) as Hm. split.
  - intros e Hr. by rewrite (RecurBaseModel_init_raise _ _ _ Hr) in Hm.
  - intros ans act param Hok Hnone.
    destruct (RecurBaseModel_init_ok _ _ _ _ _ Hok) as (_ & Hcase).
    rewrite (proj2 (linear_images_nil model) Hnone) in Hcase.
    simpl in Hcase. by rewrite Hcase in Hm.
Qed.
End ConstructorFacts.

Section AdaptorFacts.
Context {R : Type} `{Scalar R} `{Toolkit R}.
Implicit Types (model : list (torch_layer R)) (self : adaptor R).
Implicit Types (input : list R) (label : Z) (k : norm_key).

(** X7. The keras model an adaptor predicts with is the layer-by-layer
    image of the torch model it was built from, and (for Linear weights
    that are out-by-in) its forward pass is the torch model's forward pass
    in evaluation mode. *)
Theorem constructor_model_same_function c dataset model self :
  new c dataset model = Ok self ->
  Forall layer_wf model ->
  rbm_model (self_model self)
  = spec_layers (get_input_shape dataset) 0 model /\
  forall x,
    keras_forward (rbm_model (self_model self)) x = torch_forward model x.
Proof.
  intros Hnew Hwf.
  apply new_ok_inv in Hnew as (ans & act & param & Hok & -> & _).
  apply torch2keras_ok_inv in Hok as (st & Hst & -> & _).
  apply t2k_loop_ok in Hst as (-> & _ & Hs). simpl.
  split; [done|]. intros x. by apply forward_spec_layers.
Qed.

(** X8. The activation an adaptor hands to the bounding functions is the
    one kind of the torch model's activation layers, and for the
    constructors that keep the base class's choice the layer bounding
    algorithm is 'crown-adaptive' when those layers are ReLU and
    'crown-general' when they are Tanh or LeakyReLU. *)
Theorem constructor_activation c dataset model self :
  new c dataset model = Ok self ->
  rbm_activation (self_model self) ∈ activation_kinds model /\
  (forall kind, kind ∈ activation_kinds model ->
                kind = rbm_activation (self_model self)) /\
  (c <> SpectralAdaptor -> c <> FastLinAdaptor ->
   layerbndalg self
   = if decide ("relu" ∈ activation_kinds model)
     then "crown-adaptive" else "crown-general").
Proof.
  intros Hnew.
  pose proof (new_attributes _ _ _ _ Hnew) as (_ & _ & _ & _ & Hlayer).
  apply new_ok_inv in Hnew as (ans & act & param & Hok & _ & Hact & _).
  rewrite Hact in *. clear Hact.
  apply torch2keras_ok_inv in Hok as (st & _ & _ & _ & Hin & Hall).
  split_and!; [done | done |].
  intros Hc1 Hc2.
  assert (layerbndalg self
          = if decide (act = "relu") then "crown-adaptive"
            else "crown-general") as ->
    by (destruct c; first [done | by destruct Hc1 | by destruct Hc2]).
  repeat case_decide; try done.
  - by subst.
  - by rewrite <- (Hall "relu") in * by done.
Qed.

Lemma norm_table_None (norm_type : string) :
  norm_table !! norm_type = None <-> norm_type ∉ norm_keys.
Proof.
  unfold norm_table, norm_keys.
  rewrite !lookup_insert_None, lookup_singleton_None.
  rewrite !not_elem_of_cons. pose proof (@not_elem_of_nil string norm_type).
  naive_solver.
Qed.

Lemma norm_keys_key (norm_type : string) :
  norm_type ∈ norm_keys -> exists k, norm_type = key_str k.
Proof.
  unfold norm_keys. rewrite !elem_of_cons, elem_of_nil.
  intros [->|[->|[->|[]]]]; [by exists L1 | by exists L2 | by exists Linf].
Qed.

(** X9. For a norm type other than '1', '2' and 'inf', [verify] and
    [calc_radius] raise KeyError from the table lookup, before the
    prediction or any other external call. *)
Theorem norm_type_KeyError self input label norm_type radius upper eps :
  norm_type ∉ norm_keys ->
  verify input label norm_type radius self = (Raise KeyError, self, []) /\
  calc_radius input label norm_type upper eps self
  = (Raise KeyError, self, []).
Proof.
  intros Hno. by apply unknown_norm_type_raises, norm_table_None.
Qed.

(** X10. Which of [upper] and [eps] matters: SpectralAdaptor's
    [calc_radius] uses neither; the inherited [calc_radius] uses only [eps]
    when [jacbndalg] is 'disable' (FastLinAdaptor) and only [upper]
    otherwise (FastLipAdaptor, RecurJacAdaptor). *)
Theorem calc_radius_unused_arguments self input label norm_type
    upper eps upper' eps' :
  (cls self = SpectralAdaptor ->
   calc_radius input label norm_type upper eps self
   = calc_radius input label norm_type upper' eps' self) /\
  (cls self <> SpectralAdaptor -> jacbndalg self = Some "disable" ->
   calc_radius input label norm_type upper eps self
   = calc_radius input label norm_type upper' eps self) /\
  (cls self <> SpectralAdaptor -> jacbndalg self <> Some "disable" ->
   calc_radius input label norm_type upper eps self
   = calc_radius input label norm_type upper eps' self).
Proof.
  destruct (decide (norm_type ∈ norm_keys)) as [Hin|Hno].
  - apply norm_keys_key in Hin as (k & ->).
    rewrite !calc_radius_dispatch. split_and!; intros Hcls.
    + rewrite Hcls. case_decide; [|done].
      by rewrite !SpectralAdaptor_calc_radius_run.
    + intros Hjac. case_decide; [done|].
      rewrite !RecurJacBase_calc_radius_run, Hjac.
      by repeat case_decide.
    + intros Hjac. case_decide; [done|].
      rewrite !RecurJacBase_calc_radius_run.
      by repeat case_decide.
  - apply norm_table_None in Hno.
    pose proof (fun u e => proj2 (unknown_norm_type_raises self input label
                  norm_type s_zero u e Hno)) as Hraise.
    by rewrite !Hraise.
Qed.

(** X11. The attribute [bounded_input] is never read: assigning it
    changes neither what [verify] and [calc_radius] return nor the
    external calls they make. *)
Theorem bounded_input_unused self input label norm_type radius upper eps v :
  returned (verify input label norm_type radius (set_bounded_input v self))
  = returned (verify input label norm_type radius self) /\
  calls (verify input label norm_type radius (set_bounded_input v self))
  = calls (verify input label norm_type radius self) /\
  returned (calc_radius input label norm_type upper eps
              (set_bounded_input v self))
  = returned (calc_radius input label norm_type upper eps self) /\
  calls (calc_radius input label norm_type upper eps
           (set_bounded_input v self))
  = calls (calc_radius input label norm_type upper eps self).
Proof.
  destruct (decide (norm_type ∈ norm_keys)) as [Hin|Hno].
  - apply norm_keys_key in Hin as (k & ->).
    rewrite !verify_dispatch, !calc_radius_dispatch.
    change (cls (set_bounded_input v self)) with (cls self).
    case_decide as Hcls.
    + rewrite !SpectralAdaptor_verify_run, !SpectralAdaptor_calc_radius_run
        by done.
      change (rbm_model (self_model (set_bounded_input v self)))
        with (rbm_model (self_model self)).
      by case_decide.
    + rewrite !RecurJacBase_verify_run, !RecurJacBase_calc_radius_run.
      change (rbm_model (self_model (set_bounded_input v self)))
        with (rbm_model (self_model self)).
      change (jacbndalg (set_bounded_input v self)) with (jacbndalg self).
      by repeat case_decide.
  - apply norm_table_None in Hno.
    destruct (unknown_norm_type_raises self input label norm_type radius
                upper eps Hno) as [-> ->].
    by destruct (unknown_norm_type_raises (set_bounded_input v self) input
                   label norm_type radius upper eps Hno) as [-> ->].
Qed.

(** X12. For the adaptors that inherit [verify], the predicate that
    [calc_radius] hands to [binary_search] is [verify] itself: on a
    correctly predicted input, evaluating that predicate at a radius gives
    the verdict of [verify] for that radius and makes the same bounding
    call. *)
Theorem verify_is_search_predicate self input label k radius upper eps :
  cls self <> SpectralAdaptor ->
  let m := rbm_model (self_model self) in
  let pred := keras_predict m input in
  Z.of_nat (argmax pred) = label ->
  let cond :=
    if decide (jacbndalg self <> Some "disable")
    then jacobian_cond self (argmax pred) input pred (norm_of k)
    else linear_cond self (argmax pred) input pred (norm_of k) in
  let start :=
    if decide (jacbndalg self <> Some "disable") then upper else eps in
  let found := binary_search cond start (steps self) in
  calc_radius input label (key_str k) upper eps self
  = (Ok found.1, self,
     ev_predict m input :: ev_binary_search start (steps self) :: found.2) /\
  verify input label (key_str k) radius self
  = (Ok (PyBool (cond radius).1.1), self,
     ev_predict m input :: (cond radius).2).
Proof.
  intros Hcls m pred Hl cond start found.
  rewrite verify_dispatch, calc_radius_dispatch.
  case_decide; [done|].
  rewrite RecurJacBase_verify_run, RecurJacBase_calc_radius_run.
  fold m pred. case_decide; [done|].
  unfold found, start, cond. case_decide; simpl; [done|].
  split; [done|].
  unfold linear_cond, call_bounds.
  by destruct (compute_bounds _) as [[[gap ?] ?] ?].
Qed.

(** X13. A negative label is never the predicted one: [calc_radius] then
    returns 0.0, and neither method calls anything but the prediction. *)
Theorem negative_label self input label k radius upper eps :
  (label < 0)%Z ->
  let m := rbm_model (self_model self) in
  calc_radius input label (key_str k) upper eps self
  = (Ok s_zero, self, [ev_predict m input]) /\
  calls (verify input label (key_str k) radius self) = [ev_predict m input].
Proof.
  intros Hneg m.
  rewrite verify_dispatch, calc_radius_dispatch.
  case_decide.
  - rewrite SpectralAdaptor_verify_run, SpectralAdaptor_calc_radius_run
      by done.
    fold m. case_decide; [done|lia].
  - rewrite RecurJacBase_verify_run, RecurJacBase_calc_radius_run.
    fold m. case_decide; [done|lia].
Qed.
End AdaptorFacts.

(** ** The further properties on the sample networks *)

Lemma torch2keras_activation_param_witness :
  exists ans,
    torch2keras get_input_shape "toy" leaky_mlp
    = Ok (ans, "leaky", Some (2 # 10)%Q) /\
    Some (2 # 10)%Q = last (omap leaky_slope leaky_mlp) /\
    (Some (2 # 10)%Q = None <-> "leaky" <> "leaky").
Proof.
  assert (Hok : exists ans,
    torch2keras get_input_shape "toy" leaky_mlp
    = Ok (ans, "leaky", Some (2 # 10)%Q))
    by (eexists; vm_compute; reflexivity).
  destruct Hok as [ans Hok]. exists ans. split; [exact Hok|].
  exact (torch2keras_activation_param get_input_shape "toy" leaky_mlp ans
           "leaky" (Some (2 # 10)%Q) Hok).
Defined.

Lemma torch2keras_names_distinct_witness :
  torch2keras get_input_shape "toy" mlp = Ok (mlp_keras, "relu", None) /\
  NoDup (omap layer_name mlp_keras).
Proof.
  assert (Hok : torch2keras get_input_shape "toy" mlp
                = Ok (mlp_keras, "relu", None)) by (vm_compute; reflexivity).
  split; [exact Hok|].
  exact (torch2keras_names_distinct get_input_shape "toy" mlp mlp_keras
           "relu" None Hok).
Defined.

Lemma torch2keras_dense_ready_witness :
  Forall layer_wf mlp /\
  torch2keras get_input_shape "toy" mlp = Ok (mlp_keras, "relu", None) /\
  Forall dense_ready mlp_keras.
Proof.
  assert (Hwf : Forall layer_wf mlp) by (unfold mlp; repeat constructor).
  assert (Hok : torch2keras get_input_shape "toy" mlp
                = Ok (mlp_keras, "relu", None)) by (vm_compute; reflexivity).
  split; [exact Hwf|]. split; [exact Hok|].
  exact (torch2keras_dense_ready get_input_shape "toy" mlp mlp_keras "relu"
           None Hwf Hok).
Defined.

Lemma torch2keras_without_dropout_witness :
  torch2keras get_input_shape "toy" mlp = Ok (mlp_keras, "relu", None) /\
  exists ans',
    torch2keras get_input_shape "toy" (without_dropout mlp)
    = Ok (ans', "relu", None) /\
    map erase_name ans' = map erase_name mlp_keras.
Proof.
  assert (Hok : torch2keras get_input_shape "toy" mlp
                = Ok (mlp_keras, "relu", None)) by (vm_compute; reflexivity).
  split; [exact Hok|].
  exact (torch2keras_without_dropout get_input_shape "toy" mlp mlp_keras
           "relu" None Hok).
Defined.

Lemma constructor_dense_layers_witness :
  new FastLipAdaptor "toy" mlp = Ok fastlip /\
  rbm_U (self_model fastlip) ++ [rbm_W (self_model fastlip)]
  = omap linear_image mlp /\
  last (omap linear_image mlp) = Some (rbm_W (self_model fastlip)) /\
  rbm_layer_outputs (self_model fastlip) = omap linear_image mlp.
Proof.
  assert (Hnew : new FastLipAdaptor "toy" mlp = Ok fastlip)
    by (vm_compute; reflexivity).
  split; [exact Hnew|].
  exact (constructor_dense_layers FastLipAdaptor "toy" mlp fastlip Hnew).
Defined.

(** A model of a Flatten and a ReLU layer converts, but no constructor
    accepts it. *)
Lemma constructor_failures_witness :
  torch2keras get_input_shape "toy" flat_relu
  = Ok ([keras_Flatten [1; 1; 2]; keras_Activation "relu" "relu_2"],
        "relu", None) /\
  Forall (fun l => is_Linear l = false) flat_relu /\
  new SpectralAdaptor "toy" flat_relu = Raise IndexError.
Proof.
  assert (Hok : torch2keras get_input_shape "toy" flat_relu
                = Ok ([keras_Flatten [1; 1; 2];
                       keras_Activation "relu" "relu_2"], "relu", None))
    by (vm_compute; reflexivity).
  assert (Hnone : Forall (fun l => is_Linear l = false) flat_relu)
    by (unfold flat_relu; repeat constructor).
  split; [exact Hok|]. split; [exact Hnone|].
  exact (proj2 (constructor_failures SpectralAdaptor "toy" flat_relu)
           _ _ _ Hok Hnone).
Defined.

Lemma constructor_model_same_function_witness :
  new FastLinAdaptor "toy" mlp = Ok fastlin /\
  Forall layer_wf mlp /\
  rbm_model (self_model fastlin) = spec_layers (get_input_shape "toy") 0 mlp /\
  forall x,
    keras_forward (rbm_model (self_model fastlin)) x = torch_forward mlp x.
Proof.
  assert (Hnew : new FastLinAdaptor "toy" mlp = Ok fastlin)
    by (vm_compute; reflexivity).
  assert (Hwf : Forall layer_wf mlp) by (unfold mlp; repeat constructor).
  split; [exact Hnew|]. split; [exact Hwf|].
  exact (constructor_model_same_function FastLinAdaptor "toy" mlp fastlin
           Hnew Hwf).
Defined.

Lemma constructor_activation_witness :
  new RecurJacAdaptor "toy" mlp = Ok recurjac /\
  rbm_activation (self_model recurjac) ∈ activation_kinds mlp /\
  layerbndalg recurjac = "crown-adaptive".
Proof.
  assert (Hnew : new RecurJacAdaptor "toy" mlp = Ok recurjac)
    by (vm_compute; reflexivity).
  destruct (constructor_activation RecurJacAdaptor "toy" mlp recurjac Hnew)
    as (Hin & _ & Hlayer).
  split; [exact Hnew|]. split; [exact Hin|].
  rewrite Hlayer by discriminate. reflexivity.
Defined.

Lemma norm_type_KeyError_witness :
("3" ∉ norm_keys) /\
  verify x0 0 "3" (1 # 10)%Q fastlip = (Raise KeyError, fastlip, []) /\
  calc_radius x0 0 "3" (1 # 2)%Q (1 # 10000)%Q fastlip
  = (Raise KeyError, fastlip, []).
Proof.
  assert (Hno : "3" ∉ norm_keys).
  { unfold norm_keys. rewrite !not_elem_of_cons.
    split_and!; [done | done | done | apply not_elem_of_nil]. }
  split; [exact Hno|].
  exact (norm_type_KeyError fastlip x0 0 "3" (1 # 10)%Q (1 # 2)%Q
           (1 # 10000)%Q Hno).
Defined.

Lemma calc_radius_unused_arguments_witness :
  cls fastlin <> SpectralAdaptor /\
  jacbndalg fastlin = Some "disable" /\
  calc_radius x0 0 "inf" (1 # 2)%Q (1 # 10000)%Q fastlin
  = calc_radius x0 0 "inf" 7%Q (1 # 10000)%Q fastlin.
Proof.
  assert (Hcls : cls fastlin <> SpectralAdaptor) by discriminate.
  assert (Hjac : jacbndalg fastlin = Some "disable") by reflexivity.
  split; [exact Hcls|]. split; [exact Hjac|].
  exact (proj1 (proj2 (calc_radius_unused_arguments fastlin x0 0 "inf"
                         (1 # 2)%Q (1 # 10000)%Q 7%Q 0%Q)) Hcls Hjac).
Defined.

Lemma verify_is_search_predicate_witness :
  cls fastlip <> SpectralAdaptor /\
  Z.of_nat (argmax (keras_predict mlp_keras x0)) = 0%Z /\
  verify x0 0 (key_str L2) (1 # 10)%Q fastlip
  = (Ok (PyBool
           (jacobian_cond fastlip 0 x0 (keras_predict mlp_keras x0)
              (norm_int 2) (1 # 10)%Q).1.1),
     fastlip,
     ev_predict mlp_keras x0
       :: (jacobian_cond fastlip 0 x0 (keras_predict mlp_keras x0)
             (norm_int 2) (1 # 10)%Q).2).
Proof.
  assert (Hcls : cls fastlip <> SpectralAdaptor) by discriminate.
  assert (Hpred : Z.of_nat (argmax (keras_predict mlp_keras x0)) = 0%Z)
    by (vm_compute; reflexivity).
  split; [exact Hcls|]. split; [exact Hpred|].
  exact (proj2 (verify_is_search_predicate fastlip x0 0 L2 (1 # 10)%Q
                  (1 # 2)%Q (1 # 10000)%Q Hcls Hpred)).
Defined.

Lemma negative_label_witness :
  (-1 < 0)%Z /\
  calc_radius x0 (-1) (key_str Linf) (1 # 2)%Q (1 # 10000)%Q spectral
  = (Ok 0%Q, spectral, [ev_predict mlp_keras x0]) /\
  calls (verify x0 (-1) (key_str Linf) (1 # 10)%Q spectral)
  = [ev_predict mlp_keras x0].
Proof.
  assert (Hneg : (-1 < 0)%Z) by lia.
  split; [exact Hneg|].
  exact (negative_label spectral x0 (-1) Linf (1 # 10)%Q (1 # 2)%Q
           (1 # 10000)%Q Hneg).
Defined.
